(** * Flakely: signed snowflake-style identifiers

    A shallow embedding of [flakely.py] and the properties of its
    generation and validation paths.

    Python integers are unbounded, so they are [Z] here and nothing wraps:
    the only place where a width matters is [int.to_bytes], which raises
    [OverflowError] when the value does not fit.  A [bytes]/[bytearray]
    value is a [list byte].  The instance is a record that every method
    takes and, when it assigns to an attribute, returns. *)

From Stdlib Require Import ZArith List Lia Bool QArith.
From Stdlib Require Import Strings.Byte.
From Stdlib Require Strings.String.
From Stdlib Require Import Sorting.Sorted.
Import ListNotations.
Local Open Scope Z_scope.

(** ** Exceptions and results *)

Inductive exn := OverflowError.

Inductive result (A : Type) :=
| Ok (a : A)
| Raise (e : exn).
Arguments Ok {A} a.
Arguments Raise {A} e.

Definition bind {A B} (r : result A) (k : A -> result B) : result B :=
  match r with
  | Ok a => k a
  | Raise e => Raise e
  end.

Notation "x <- r ;; k" := (bind r (fun x => k))
  (at level 61, r at next level, right associativity).

(** ** Bytes *)

Definition byte_to_Z (b : byte) : Z := Z.of_N (Byte.to_N b).

(** The byte whose value is [z mod 256]. *)
Definition byte_of_Z (z : Z) : byte :=
  match Byte.of_N (Z.to_N (z mod 256)) with
  | Some b => b
  | None => x00
  end.

(** [little k n]: the [k] low base-256 digits of [n], least significant
    first. *)
Fixpoint little (k : nat) (n : Z) : list byte :=
  match k with
  | O => []
  | S k' => byte_of_Z n :: little k' (n / 256)
  end.

(** [n.to_bytes(length, "little")] with the default [signed=False]:
    a negative [n] and an [n] that needs more than [length] bytes both
    raise [OverflowError]. *)
Definition to_bytes (n : Z) (length : nat) : result (list byte) :=
  if n <? 0 then Raise OverflowError
  else if 256 ^ Z.of_nat length <=? n then Raise OverflowError
  else Ok (little length n).

(** [int.from_bytes(bs, byteorder="little")]. *)
Fixpoint from_bytes (bs : list byte) : Z :=
  match bs with
  | [] => 0
  | b :: bs' => byte_to_Z b + 256 * from_bytes bs'
  end.

(** ** SHA-256 (FIPS 180-4), the digest behind [hashlib.sha256]

    Words are [Z] in [[0, 2^32)]; every addition is reduced explicitly. *)

Module SHA256.

Definition w32 (x : Z) : Z := x mod 2 ^ 32.
Definition add32 (x y : Z) : Z := w32 (x + y).
Definition rotr (n x : Z) : Z :=
  w32 (Z.lor (Z.shiftr x n) (Z.shiftl x (32 - n))).
Definition shr (n x : Z) : Z := Z.shiftr x n.

Definition Ch (x y z : Z) : Z :=
  Z.lxor (Z.land x y) (Z.land (Z.lxor x (2 ^ 32 - 1)) z).
Definition Maj (x y z : Z) : Z :=
  Z.lxor (Z.lxor (Z.land x y) (Z.land x z)) (Z.land y z).
Definition bsig0 (x : Z) : Z :=
  Z.lxor (Z.lxor (rotr 2 x) (rotr 13 x)) (rotr 22 x).
Definition bsig1 (x : Z) : Z :=
  Z.lxor (Z.lxor (rotr 6 x) (rotr 11 x)) (rotr 25 x).
Definition ssig0 (x : Z) : Z :=
  Z.lxor (Z.lxor (rotr 7 x) (rotr 18 x)) (shr 3 x).
Definition ssig1 (x : Z) : Z :=
  Z.lxor (Z.lxor (rotr 17 x) (rotr 19 x)) (shr 10 x).

(** The constants are defined as the standard derives them: from the
    first 64 primes, the first 32 bits of the fractional part of the cube
    root (round constants) and, for the first 8, of the square root
    (initial hash value). *)
Definition primes : list Z :=
  [2; 3; 5; 7; 11; 13; 17; 19; 23; 29; 31; 37; 41; 43; 47; 53; 59; 61; 67;
   71; 73; 79; 83; 89; 97; 101; 103; 107; 109; 113; 127; 131; 137; 139; 149;
   151; 157; 163; 167; 173; 179; 181; 191; 193; 197; 199; 211; 223; 227;
   229; 233; 239; 241; 251; 257; 263; 269; 271; 277; 281; 283; 293; 307;
   311].

(** [cbrt_bits b r n]: the largest [r' >= r] below [r + 2^b] whose cube
    is at most [n], built bit by bit from the top. *)
Fixpoint cbrt_bits (b : nat) (r n : Z) : Z :=
  match b with
  | O => r
  | S b' =>
      let r' := r + 2 ^ Z.of_nat b' in
      cbrt_bits b' (if r' * r' * r' <=? n then r' else r) n
  end.

Definition frac_cbrt (p : Z) : Z := w32 (cbrt_bits 36 0 (p * 2 ^ 96)).
Definition frac_sqrt (p : Z) : Z := w32 (Z.sqrt (p * 2 ^ 64)).

Definition K : list Z := Eval vm_compute in map frac_cbrt primes.

(** The eight working variables / chaining values. *)
Record regs := Regs {
  ra : Z; rb : Z; rc : Z; rd : Z; re : Z; rf : Z; rg : Z; rh : Z
}.

Definition H0 : regs :=
  Eval vm_compute in
    match map frac_sqrt (firstn 8 primes) with
    | [a; b; c; d; e; f; g; h] => Regs a b c d e f g h
    | _ => Regs 0 0 0 0 0 0 0 0
    end.

(** Padding: a 1 bit, zeros up to 56 mod 64 bytes, then the bit length
    as a big-endian 64-bit integer. *)
Definition big (k : nat) (n : Z) : list Z :=
  rev (map byte_to_Z (little k n)).

Definition pad (msg : list Z) : list Z :=
  let len := Z.of_nat (length msg) in
  let zeros := Z.to_nat ((55 - len) mod 64) in
  msg ++ 0x80 :: repeat 0 zeros ++ big 8 (8 * len).

(** Big-endian words of a byte string. *)
Fixpoint words (bs : list Z) : list Z :=
  match bs with
  | b0 :: b1 :: b2 :: b3 :: bs' =>
      (((b0 * 256 + b1) * 256 + b2) * 256 + b3) :: words bs'
  | _ => []
  end.

(** Message schedule: [extend n w] appends [n] words to the schedule [w],
    each computed from the words 2, 7, 15 and 16 places back. *)
Fixpoint extend (n : nat) (w : list Z) : list Z :=
  match n with
  | O => w
  | S n' =>
      let t := length w in
      let at_ (back : nat) := nth (t - back) w 0 in
      let x := add32 (add32 (ssig1 (at_ 2%nat)) (at_ 7%nat))
                     (add32 (ssig0 (at_ 15%nat)) (at_ 16%nat)) in
      extend n' (w ++ [x])
  end.

Definition round (s : regs) (kw : Z * Z) : regs :=
  let (k, w) := kw in
  let t1 := add32 (add32 (add32 (rh s) (bsig1 (re s)))
                         (add32 (Ch (re s) (rf s) (rg s)) k)) w in
  let t2 := add32 (bsig0 (ra s)) (Maj (ra s) (rb s) (rc s)) in
  Regs (add32 t1 t2) (ra s) (rb s) (rc s)
       (add32 (rd s) t1) (re s) (rf s) (rg s).

Definition compress (h : regs) (block : list Z) : regs :=
  let w := extend 48 (words block) in
  let s := fold_left round (combine K w) h in
  Regs (add32 (ra h) (ra s)) (add32 (rb h) (rb s))
       (add32 (rc h) (rc s)) (add32 (rd h) (rd s))
       (add32 (re h) (re s)) (add32 (rf h) (rf s))
       (add32 (rg h) (rg s)) (add32 (rh h) (rh s)).

(** The padded message is consumed 64 bytes at a time; [n] bounds the
    number of blocks. *)
Fixpoint blocks (n : nat) (h : regs) (bs : list Z) : regs :=
  match n with
  | O => h
  | S n' =>
      match bs with
      | [] => h
      | _ => blocks n' (compress h (firstn 64 bs)) (skipn 64 bs)
      end
  end.

Definition be32 (x : Z) : list byte := rev (little 4 x).

Definition digest_of (h : regs) : list byte :=
  be32 (ra h) ++ be32 (rb h) ++ be32 (rc h) ++ be32 (rd h) ++
  be32 (re h) ++ be32 (rf h) ++ be32 (rg h) ++ be32 (rh h).

Definition digest (msg : list byte) : list byte :=
  let m := pad (map byte_to_Z msg) in
  digest_of (blocks (length m) H0 m).

End SHA256.

(** ** The environment of a call

    What the standard library hands to the code: the constants and calls
    of the [os] module as one process sees them, the entropy behind
    [secrets.randbelow], and the clock.  Only platforms whose [os] module
    has [P_PID] are covered; elsewhere the default of [process] cannot be
    evaluated at all. *)

Record os_module := {
  P_PID : Z;    (** [os.P_PID]: the [idtype] selector of [os.waitid] *)
  getpid : Z    (** what [os.getpid()] returns in this process *)
}.

(** On Linux (glibc's [idtype_t]) [P_PID] is 1, in every process. *)
Definition linux (pid : Z) : os_module := {| P_PID := 1; getpid := pid |}.

(** [secrets.randbelow(n)]: some value of [[0, n)], here drawn from the
    [entropy] the operating system provides. *)
Definition randbelow (entropy : Z) (n : Z) : Z := entropy mod n.

(** ** The source *)

Definition _use_if_set_else {T} (value : option T) (default : unit -> T) : T :=
  match value with
  | None => default tt
  | Some v => v
  end.

Record Flakely := {
  device : Z;
  process : Z;
  secret : list byte;
  _last_generated : Z;
  _generation_counter : Z
}.

Definition COUNTER_SIZE : nat := 2.
Definition DEVICE_ID_SIZE : nat := 4.
Definition IDENTIFIER_SIZE : nat := 4.
Definition PROCESS_ID_SIZE : nat := 4.
Definition SIGNATURE_SIZE : nat := 32.
Definition TICK_SIZE : nat := 4.
(** [BYTE_ORDER] is ["little"]: [to_bytes] and [from_bytes] above are the
    little-endian conversions. *)

(** [Flakely.__init__].  The [secret] is taken as bytes: a [str] argument
    is first replaced by its [encode()]. *)
Definition __init__ (os : os_module) (entropy : Z)
    (device process : option Z) (secret : list byte) : Flakely :=
  {| device := _use_if_set_else device (fun _ => randbelow entropy (2 ^ 32));
     process := _use_if_set_else process (fun _ => P_PID os);
     secret := secret;
     _last_generated := 0;
     _generation_counter := 0 |}.

Definition get_signature (self : Flakely) (flake : list byte) : list byte :=
  SHA256.digest (flake ++ secret self).

(** [get_tick]: [int(time.time())].  The clock reading is a finite float,
    hence a rational; [int] drops the fraction, rounding towards zero. *)
Definition get_tick (time_time : Q) : Z :=
  Z.quot (Qnum time_time) (Z.pos (Qden time_time)).

Definition update_counter (self : Flakely) (tick : Z) : Flakely :=
  if tick =? _last_generated self then
    {| device := device self; process := process self; secret := secret self;
       _last_generated := _last_generated self;
       _generation_counter := _generation_counter self + 1 |}
  else
    {| device := device self; process := process self; secret := secret self;
       _last_generated := tick;
       _generation_counter := 0 |}.

(** [generate_bytes] returns the instance as [update_counter] left it,
    whether or not a later [to_bytes] raises. *)
Definition generate_bytes (self : Flakely) (time_time : Q) (identifier : Z)
  : Flakely * result (list byte) :=
  let tick := get_tick time_time in
  let self := update_counter self tick in
  (self,
   b_identifier <- to_bytes identifier IDENTIFIER_SIZE ;;
   b_counter <- to_bytes (_generation_counter self) COUNTER_SIZE ;;
   b_process <- to_bytes (process self) PROCESS_ID_SIZE ;;
   b_device <- to_bytes (device self) DEVICE_ID_SIZE ;;
   b_tick <- to_bytes tick TICK_SIZE ;;
   let flake := b_identifier ++ b_counter ++ b_process ++ b_device ++ b_tick in
   Ok (flake ++ get_signature self flake)).

Definition generate (self : Flakely) (time_time : Q) (identifier : Z)
  : Flakely * result Z :=
  let (self, r) := generate_bytes self time_time identifier in
  (self, flake <- r ;; Ok (from_bytes flake)).

Fixpoint bytes_eqb (a b : list byte) : bool :=
  match a, b with
  | [], [] => true
  | x :: a', y :: b' => Byte.eqb x y && bytes_eqb a' b'
  | _, _ => false
  end.

Definition validate (self : Flakely) (flake : Z) : result bool :=
  let payload_size :=
    (COUNTER_SIZE + DEVICE_ID_SIZE + IDENTIFIER_SIZE + PROCESS_ID_SIZE
     + TICK_SIZE)%nat in
  _flake <- to_bytes flake (payload_size + SIGNATURE_SIZE)%nat ;;
  let payload := firstn payload_size _flake in
  let signature := skipn payload_size _flake in
  Ok (bytes_eqb signature (get_signature self payload)).

(** ** Calls that ignore the annotation

    [validate] is annotated [flake: int], which Python does not enforce.
    Its first step, [flake.to_bytes], is an attribute lookup, and the
    [bytearray] that [generate_bytes] returns has no [to_bytes]: the call
    raises [AttributeError] before anything is compared. *)

Inductive argument :=
| Number (n : Z)
| Bytearray (bs : list byte).

Inductive outcome (A : Type) :=
| Returned (a : A)
| Raised (e : exn)
| AttributeError.
Arguments Returned {A} a.
Arguments Raised {A} e.
Arguments AttributeError {A}.

(** [self.validate(flake)] for an argument of either kind. *)
Definition validate_call (self : Flakely) (flake : argument) : outcome bool :=
  match flake with
  | Number n =>
      match validate self n with
      | Ok b => Returned b
      | Raise e => Raised e
      end
  | Bytearray _ => AttributeError
  end.

(** ** Callers and readers of tokens *)

(** A caller that mints one token per clock reading, with one identifier;
    the results are in call order. *)
Fixpoint generate_many (self : Flakely) (times : list Q) (identifier : Z)
  : Flakely * list (result (list byte)) :=
  match times with
  | [] => (self, [])
  | t :: times' =>
      let (self1, r) := generate_bytes self t identifier in
      let (self2, rs) := generate_many self1 times' identifier in
      (self2, r :: rs)
  end.

(** [bs[off : off + len]]. *)
Definition slice (off len : nat) (bs : list byte) : list byte :=
  firstn len (skipn off bs).

(** The fields of a token, by offset, read little-endian. *)
Definition tok_identifier (bs : list byte) : Z := from_bytes (slice 0 4 bs).
Definition tok_counter (bs : list byte) : Z := from_bytes (slice 4 2 bs).
Definition tok_process (bs : list byte) : Z := from_bytes (slice 6 4 bs).
Definition tok_device (bs : list byte) : Z := from_bytes (slice 10 4 bs).
Definition tok_tick (bs : list byte) : Z := from_bytes (slice 14 4 bs).
Definition tok_payload (bs : list byte) : list byte := slice 0 18 bs.
Definition tok_signature (bs : list byte) : list byte := slice 18 32 bs.

(** [bs] holds [v] little-endian: byte [i] is the base-256 digit of
    weight [256 ^ i]. *)
Definition little_endian (v : Z) (bs : list byte) : Prop :=
  forall i, (i < length bs)%nat ->
    byte_to_Z (nth i bs x00) = (v / 256 ^ Z.of_nat i) mod 256.

(** The value fits [k] unsigned bytes. *)
Definition fits (k : nat) (v : Z) : Prop := 0 <= v < 256 ^ Z.of_nat k.

(** The 18 payload bytes of a token with these five field values. *)
Definition payload_bytes (identifier counter process device tick : Z)
  : list byte :=
  little 4 identifier ++ little 2 counter ++ little 4 process
  ++ little 4 device ++ little 4 tick.

(** All five values fit their fields. *)
Definition payload_fits (identifier counter process device tick : Z) : Prop :=
  fits 4 identifier /\ fits 2 counter /\ fits 4 process /\ fits 4 device
  /\ fits 4 tick.

(** The token minted from these values by an instance with [self]'s
    secret: payload, then the digest of payload and secret. *)
Definition token_of (self : Flakely) (identifier counter tick : Z)
  : list byte :=
  let payload :=
    payload_bytes identifier counter (process self) (device self) tick in
  payload ++ SHA256.digest (payload ++ secret self).

(** What a call returns once identifier, process, device and tick fit:
    the token, unless the counter is past its two bytes. *)
Definition minted (self : Flakely) (identifier counter tick : Z)
  : result (list byte) :=
  if counter <? 65536 then Ok (token_of self identifier counter tick)
  else Raise OverflowError.

(** The outcome of a run of calls on one tick in which call [k] (from 0)
    returns a token with counter [k] and the given other fields. *)
Definition counts_from_zero (self : Flakely) (times : list Q)
    (identifier tick : Z) : Prop :=
  let results := snd (generate_many self times identifier) in
  length results = length times
  /\ forall k, (k < length times)%nat ->
       exists bs, nth_error results k = Some (Ok bs)
                  /\ tok_counter bs = Z.of_nat k
                  /\ tok_identifier bs = identifier
                  /\ tok_process bs = process self
                  /\ tok_device bs = device self
                  /\ tok_tick bs = tick.

(** Call number 65537 of a run (index 65536) returns a token whose counter
    field is 0. *)
Definition wraps_to_zero (self : Flakely) (times : list Q) (identifier : Z)
  : Prop :=
  exists bs,
    nth_error (snd (generate_many self times identifier)) (Z.to_nat 65536)
      = Some (Ok bs)
    /\ tok_counter bs = 0.

(** ** Sample values for the examples *)

Definition sample_secret : list byte := ["k"%byte; "e"%byte; "y"%byte].

(** [Flakely(device=7, process=9, secret=b"key")], in process 4242. *)
Definition sample : Flakely :=
  __init__ (linux 4242) 123456789123 (Some 7) (Some 9) sample_secret.

(** A clock reading of 1700000000.5 seconds. *)
Definition noon : Q := 3400000001 # 2.

(** Hexadecimal reading of a digest, most significant byte first. *)
Definition hex (bs : list byte) : Z :=
  fold_left (fun acc b => acc * 256 + byte_to_Z b) bs 0.

(** * Properties *)

(** ** SHA-256 test vectors (FIPS 180-4, appendix B) *)

Example round_constants :
  length SHA256.K = 64%nat
  /\ hd 0 SHA256.K = 0x428a2f98 /\ last SHA256.K 0 = 0xc67178f2.
Proof. repeat split. Qed.

Example initial_hash :
  SHA256.ra SHA256.H0 = 0x6a09e667 /\ SHA256.rh SHA256.H0 = 0x5be0cd19.
Proof. split; reflexivity. Qed.

Module TestVectors.
Import String.
Local Open Scope string_scope.

Example sha_empty : hex (SHA256.digest []) =
  0xe3b0c44298fc1c149afbf4c8996fb92427ae41e4649b934ca495991b7852b855.
Proof. vm_compute. reflexivity. Qed.

Example sha_abc : hex (SHA256.digest (list_byte_of_string "abc")) =
  0xba7816bf8f01cfea414140de5dae2223b00361a396177a9cb410ff61f20015ad.
Proof. vm_compute. reflexivity. Qed.

Example sha_two_blocks :
  hex (SHA256.digest (list_byte_of_string
    "abcdbcdecdefdefgefghfghighijhijkijkljklmklmnlmnomnopnopq")) =
  0x248d6a61d20638b8e5c026930c3e6039a33ce45964ff2167f6ecedd419db06c1.
Proof. vm_compute. reflexivity. Qed.

End TestVectors.

(** ** The clock *)

Example get_tick_drops_the_fraction :
  get_tick noon = 1700000000 /\ get_tick (7 # 4) = 1
  /\ get_tick (1 # 2) = 0 /\ get_tick (- 1 # 2) = 0 /\ get_tick (- 7 # 4) = -1.
Proof. repeat split. Qed.

(** ** Bytes and the little-endian conversions *)

Lemma byte_to_Z_range (b : byte) : 0 <= byte_to_Z b < 256.
Proof.
  unfold byte_to_Z. pose proof (Byte.to_N_bounded b). lia.
Qed.

Lemma byte_of_to_Z (b : byte) : byte_of_Z (byte_to_Z b) = b.
Proof.
  unfold byte_of_Z. pose proof (byte_to_Z_range b) as R.
  rewrite Z.mod_small by exact R.
  unfold byte_to_Z. rewrite N2Z.id, Byte.of_to_N. reflexivity.
Qed.

Lemma byte_to_of_Z (z : Z) : byte_to_Z (byte_of_Z z) = z mod 256.
Proof.
  unfold byte_of_Z, byte_to_Z.
  pose proof (Z.mod_pos_bound z 256 ltac:(lia)) as R.
  destruct (Byte.of_N (Z.to_N (z mod 256))) as [b|] eqn:E.
  - apply Byte.to_of_N in E. rewrite E. lia.
  - apply Byte.of_N_None_iff in E. lia.
Qed.

Lemma byte_of_Z_digit (b : byte) (x : Z) :
  byte_of_Z (byte_to_Z b + 256 * x) = b.
Proof.
  rewrite <- (byte_of_to_Z b) at 2. unfold byte_of_Z.
  replace ((byte_to_Z b + 256 * x) mod 256) with (byte_to_Z b mod 256);
    [reflexivity|].
  rewrite (Z.mul_comm 256 x), Z.mod_add by lia. reflexivity.
Qed.

Lemma little_length (k : nat) (n : Z) : length (little k n) = k.
Proof.
  revert n. induction k as [|k IH]; intros n; simpl; [|rewrite IH]; reflexivity.
Qed.

Lemma from_bytes_range (bs : list byte) :
  0 <= from_bytes bs < 256 ^ Z.of_nat (length bs).
Proof.
  induction bs as [|b bs IH].
  - simpl. lia.
  - cbn [from_bytes length]. rewrite Nat2Z.inj_succ, Z.pow_succ_r by lia.
    pose proof (byte_to_Z_range b). lia.
Qed.

Lemma little_from_bytes (bs : list byte) :
  little (length bs) (from_bytes bs) = bs.
Proof.
  induction bs as [|b bs IH]; [reflexivity|].
  cbn [from_bytes length little]. rewrite byte_of_Z_digit. f_equal.
  pose proof (byte_to_Z_range b).
  replace ((byte_to_Z b + 256 * from_bytes bs) / 256) with (from_bytes bs);
    [exact IH|].
  rewrite (Z.mul_comm 256), Z.div_add by lia.
  rewrite Z.div_small by lia. reflexivity.
Qed.

Lemma from_bytes_little (k : nat) (n : Z) :
  from_bytes (little k n) = n mod 256 ^ Z.of_nat k.
Proof.
  revert n. induction k as [|k IH]; intros n.
  - simpl. rewrite Z.mod_1_r. reflexivity.
  - cbn [little from_bytes]. rewrite IH, byte_to_of_Z.
    rewrite Nat2Z.inj_succ, Z.pow_succ_r by lia.
    rewrite Z.rem_mul_r by lia. reflexivity.
Qed.

Lemma from_bytes_little_fits (k : nat) (n : Z) :
  fits k n -> from_bytes (little k n) = n.
Proof.
  intros F. rewrite from_bytes_little. apply Z.mod_small. exact F.
Qed.

Lemma from_bytes_app (a b : list byte) :
  from_bytes (a ++ b) = from_bytes a + 256 ^ Z.of_nat (length a) * from_bytes b.
Proof.
  induction a as [|x a IH].
  - cbn [app from_bytes length]. change (256 ^ Z.of_nat 0) with 1. ring.
  - cbn [app from_bytes length]. rewrite IH, Nat2Z.inj_succ, Z.pow_succ_r by lia.
    ring.
Qed.

Lemma little_is_little_endian (k : nat) (n : Z) : little_endian n (little k n).
Proof.
  unfold little_endian. revert n. induction k as [|k IH]; intros n i Hi.
  - simpl in Hi. lia.
  - destruct i as [|i].
    + cbn [little nth]. rewrite byte_to_of_Z. simpl. rewrite Z.div_1_r.
      reflexivity.
    + cbn [little nth]. cbn [little length] in Hi.
      rewrite IH by lia.
      rewrite Nat2Z.inj_succ, Z.pow_succ_r by lia.
      rewrite Z.div_div by lia. reflexivity.
Qed.

Lemma to_bytes_fits (k : nat) (n : Z) :
  fits k n -> to_bytes n k = Ok (little k n).
Proof.
  unfold fits, to_bytes. intros [L U].
  destruct (Z.ltb_spec n 0); [lia|].
  destruct (Z.leb_spec (256 ^ Z.of_nat k) n); [lia|]. reflexivity.
Qed.

Lemma to_bytes_overflow (k : nat) (n : Z) :
  ~ fits k n -> to_bytes n k = Raise OverflowError.
Proof.
  unfold fits, to_bytes. intros NF.
  destruct (Z.ltb_spec n 0); [reflexivity|].
  destruct (Z.leb_spec (256 ^ Z.of_nat k) n); [reflexivity|]. lia.
Qed.

Lemma to_bytes_Ok_inv (k : nat) (n : Z) (bs : list byte) :
  to_bytes n k = Ok bs -> fits k n /\ bs = little k n.
Proof.
  unfold fits, to_bytes.
  destruct (Z.ltb_spec n 0); [discriminate|].
  destruct (Z.leb_spec (256 ^ Z.of_nat k) n); [discriminate|].
  intros E. injection E as <-. split; [lia|reflexivity].
Qed.

Lemma to_bytes_from_bytes (bs : list byte) :
  to_bytes (from_bytes bs) (length bs) = Ok bs.
Proof.
  rewrite to_bytes_fits by apply from_bytes_range.
  rewrite little_from_bytes. reflexivity.
Qed.

Lemma bytes_eqb_eq (a b : list byte) : bytes_eqb a b = true <-> a = b.
Proof.
  revert b. induction a as [|x a IH]; intros [|y b]; simpl;
    try (split; [discriminate|discriminate]); [tauto|].
  rewrite andb_true_iff, IH. split.
  - intros [E ->]. apply Byte.byte_dec_bl in E. subst. reflexivity.
  - intros E. injection E as -> ->. split; [|reflexivity].
    apply Byte.byte_dec_lb. reflexivity.
Qed.

Lemma digest_length (msg : list byte) : length (SHA256.digest msg) = 32%nat.
Proof.
  unfold SHA256.digest, SHA256.digest_of, SHA256.be32.
  repeat rewrite length_app. repeat rewrite length_rev.
  repeat rewrite little_length. reflexivity.
Qed.

(** ** The sequencer *)

Lemma update_counter_identity (self : Flakely) (tick : Z) :
  device (update_counter self tick) = device self
  /\ process (update_counter self tick) = process self
  /\ secret (update_counter self tick) = secret self.
Proof.
  unfold update_counter. destruct (tick =? _last_generated self); auto.
Qed.

Lemma update_counter_last (self : Flakely) (tick : Z) :
  _last_generated (update_counter self tick) = tick.
Proof.
  unfold update_counter. destruct (Z.eqb_spec tick (_last_generated self));
    cbn; congruence.
Qed.

Lemma update_counter_same (self : Flakely) (tick : Z) :
  tick = _last_generated self ->
  _generation_counter (update_counter self tick) = _generation_counter self + 1.
Proof.
  intros E. unfold update_counter. rewrite (proj2 (Z.eqb_eq _ _) E). reflexivity.
Qed.

Lemma update_counter_new (self : Flakely) (tick : Z) :
  tick <> _last_generated self ->
  _generation_counter (update_counter self tick) = 0.
Proof.
  intros E. unfold update_counter. rewrite (proj2 (Z.eqb_neq _ _) E). reflexivity.
Qed.

Lemma update_counter_changes (self : Flakely) (tick : Z) :
  update_counter self tick <> self.
Proof.
  intros E. destruct (Z.eq_dec tick (_last_generated self)) as [Same|New].
  - pose proof (update_counter_same self tick Same) as C. rewrite E in C. lia.
  - pose proof (update_counter_last self tick) as L. rewrite E in L. congruence.
Qed.

(** ** What [generate_bytes] returns *)

Lemma generate_bytes_state (self : Flakely) (t : Q) (identifier : Z) :
  fst (generate_bytes self t identifier) = update_counter self (get_tick t).
Proof. reflexivity. Qed.

Lemma generate_bytes_fits (self : Flakely) (t : Q) (identifier : Z) :
  let self' := update_counter self (get_tick t) in
  payload_fits identifier (_generation_counter self') (process self)
               (device self) (get_tick t) ->
  let payload := payload_bytes identifier (_generation_counter self')
                   (process self) (device self) (get_tick t) in
  generate_bytes self t identifier =
    (self', Ok (payload ++ SHA256.digest (payload ++ secret self))).
Proof.
  intros self' (Fi & Fc & Fp & Fd & Ft) payload.
  destruct (update_counter_identity self (get_tick t)) as (Ed & Ep & Es).
  unfold generate_bytes. fold self'.
  unfold IDENTIFIER_SIZE, COUNTER_SIZE, PROCESS_ID_SIZE, DEVICE_ID_SIZE, TICK_SIZE.
  fold self' in Ed, Ep, Es.
  rewrite (to_bytes_fits _ _ Fi). cbn [bind].
  rewrite (to_bytes_fits _ _ Fc). cbn [bind].
  rewrite Ep, (to_bytes_fits _ _ Fp). cbn [bind].
  rewrite Ed, (to_bytes_fits _ _ Fd). cbn [bind].
  rewrite (to_bytes_fits _ _ Ft). cbn [bind].
  unfold get_signature. rewrite Es. reflexivity.
Qed.

Lemma generate_bytes_Ok_inv (self self' : Flakely) (t : Q) (identifier : Z)
    (bs : list byte) :
  generate_bytes self t identifier = (self', Ok bs) ->
  self' = update_counter self (get_tick t)
  /\ payload_fits identifier (_generation_counter self') (process self)
                  (device self) (get_tick t)
  /\ bs = payload_bytes identifier (_generation_counter self') (process self)
            (device self) (get_tick t)
          ++ SHA256.digest
               (payload_bytes identifier (_generation_counter self')
                  (process self) (device self) (get_tick t) ++ secret self).
Proof.
  unfold generate_bytes.
  destruct (update_counter_identity self (get_tick t)) as (Ed & Ep & Es).
  set (s := update_counter self (get_tick t)) in *.
  unfold IDENTIFIER_SIZE, COUNTER_SIZE, PROCESS_ID_SIZE, DEVICE_ID_SIZE, TICK_SIZE.
  intros E. injection E as <- E. split; [reflexivity|].
  destruct (to_bytes identifier 4) as [b1|] eqn:E1; [|discriminate].
  destruct (to_bytes (_generation_counter s) 2) as [b2|] eqn:E2; [|discriminate].
  destruct (to_bytes (process s) 4) as [b3|] eqn:E3; [|discriminate].
  destruct (to_bytes (device s) 4) as [b4|] eqn:E4; [|discriminate].
  destruct (to_bytes (get_tick t) 4) as [b5|] eqn:E5; [|discriminate].
  cbn [bind] in E. injection E as <-.
  apply to_bytes_Ok_inv in E1, E2, E3, E4, E5.
  destruct E1 as [F1 ->], E2 as [F2 ->], E3 as [F3 ->], E4 as [F4 ->],
    E5 as [F5 ->].
  rewrite Ep in *. rewrite Ed in *. unfold get_signature. rewrite Es.
  split; [|reflexivity]. unfold payload_fits. tauto.
Qed.

Lemma generate_bytes_unfit (self : Flakely) (t : Q) (identifier : Z) :
  ~ payload_fits identifier
      (_generation_counter (update_counter self (get_tick t)))
      (process self) (device self) (get_tick t) ->
  generate_bytes self t identifier =
    (update_counter self (get_tick t), Raise OverflowError).
Proof.
  intros NF. destruct (generate_bytes self t identifier) as [s r] eqn:E.
  pose proof (generate_bytes_state self t identifier) as St.
  rewrite E in St. cbn [fst] in St. subst s.
  destruct r as [bs|[]]; [|reflexivity].
  apply generate_bytes_Ok_inv in E. destruct E as (_ & F & _). contradiction.
Qed.

Lemma generate_bytes_identifier_overflow (self : Flakely) (t : Q)
    (identifier : Z) :
  ~ fits 4 identifier ->
  generate_bytes self t identifier =
    (update_counter self (get_tick t), Raise OverflowError).
Proof.
  intros NF. unfold generate_bytes, IDENTIFIER_SIZE.
  rewrite (to_bytes_overflow _ _ NF). reflexivity.
Qed.

Lemma generate_bytes_counter_overflow (self : Flakely) (t : Q)
    (identifier : Z) :
  fits 4 identifier ->
  ~ fits 2 (_generation_counter (update_counter self (get_tick t))) ->
  generate_bytes self t identifier =
    (update_counter self (get_tick t), Raise OverflowError).
Proof.
  intros F NF. unfold generate_bytes, IDENTIFIER_SIZE, COUNTER_SIZE.
  rewrite (to_bytes_fits _ _ F). cbn [bind].
  rewrite (to_bytes_overflow _ _ NF). reflexivity.
Qed.

Lemma generate_eq (self : Flakely) (t : Q) (identifier : Z) :
  generate self t identifier =
    (fst (generate_bytes self t identifier),
     flake <- snd (generate_bytes self t identifier) ;; Ok (from_bytes flake)).
Proof.
  unfold generate. destruct (generate_bytes self t identifier). reflexivity.
Qed.

(** Closes a goal [fits k v] on closed terms by evaluation. *)
Ltac fits_now :=
  unfold fits; split; [apply Z.leb_le | apply Z.ltb_lt]; vm_compute; reflexivity.

Lemma fits4_iff (v : Z) : fits 4 v <-> 0 <= v < 2 ^ 32.
Proof. unfold fits. change (256 ^ Z.of_nat 4) with (2 ^ 32). tauto. Qed.

Lemma fits2_iff (v : Z) : fits 2 v <-> 0 <= v < 65536.
Proof. unfold fits. change (256 ^ Z.of_nat 2) with 65536. tauto. Qed.

Lemma payload_fits_intro (identifier counter process device tick : Z) :
  fits 4 identifier -> 0 <= counter < 65536 -> fits 4 process ->
  fits 4 device -> fits 4 tick ->
  payload_fits identifier counter process device tick.
Proof.
  intros Fi Fc Fp Fd Ft. unfold payload_fits. rewrite fits2_iff. tauto.
Qed.

Lemma fits50_iff (v : Z) : fits 50 v <-> 0 <= v < 2 ^ 400.
Proof. unfold fits. change (256 ^ Z.of_nat 50) with (2 ^ 400). tauto. Qed.

Lemma generate_bytes_length (self self' : Flakely) (t : Q) (identifier : Z)
    (bs : list byte) :
  generate_bytes self t identifier = (self', Ok bs) -> length bs = 50%nat.
Proof.
  intros E. apply generate_bytes_Ok_inv in E. destruct E as (_ & _ & ->).
  unfold payload_bytes. repeat rewrite length_app.
  repeat rewrite little_length. rewrite digest_length. reflexivity.
Qed.

Lemma token_of_split (self : Flakely) (identifier counter tick : Z) :
  firstn 18 (token_of self identifier counter tick) =
    payload_bytes identifier counter (process self) (device self) tick
  /\ skipn 18 (token_of self identifier counter tick) =
    SHA256.digest
      (payload_bytes identifier counter (process self) (device self) tick
       ++ secret self).
Proof.
  unfold token_of.
  set (p := payload_bytes identifier counter (process self) (device self) tick).
  assert (L : length p = 18%nat).
  { unfold p, payload_bytes. repeat rewrite length_app.
    repeat rewrite little_length. reflexivity. }
  split.
  - rewrite firstn_app, L, Nat.sub_diag, firstn_O, app_nil_r.
    rewrite <- L. apply firstn_all.
  - rewrite skipn_app, L, Nat.sub_diag, skipn_O.
    rewrite <- L, skipn_all. reflexivity.
Qed.

Lemma validate_token_of (self v : Flakely) (identifier counter tick : Z) :
  secret v = secret self ->
  validate v (from_bytes (token_of self identifier counter tick)) = Ok true.
Proof.
  intros Es. unfold validate.
  assert (L : length (token_of self identifier counter tick) = 50%nat).
  { unfold token_of, payload_bytes. repeat rewrite length_app.
    repeat rewrite little_length. rewrite digest_length. reflexivity. }
  change (COUNTER_SIZE + DEVICE_ID_SIZE + IDENTIFIER_SIZE + PROCESS_ID_SIZE
          + TICK_SIZE)%nat with 18%nat.
  change (18 + SIGNATURE_SIZE)%nat with 50%nat.
  rewrite <- L at 1. rewrite to_bytes_from_bytes. cbn [bind].
  destruct (token_of_split self identifier counter tick) as [-> ->].
  unfold get_signature. rewrite Es.
  f_equal. apply bytes_eqb_eq. reflexivity.
Qed.

(** The sample instance, on its first call, at [noon], for identifier 42. *)
Lemma sample_mints :
  generate_bytes sample noon 42 =
    (update_counter sample 1700000000, Ok (token_of sample 42 0 1700000000)).
Proof.
  apply (generate_bytes_fits sample noon 42).
  apply payload_fits_intro; fits_now.
Qed.

(** ** Generate, then validate *)

(** C1, as the code has it: for an identifier in [[0, 2^32)], whenever
    [generate] returns a token, [validate] accepts that number on any
    instance holding the same secret, in particular on the generating
    instance before and after the call; whenever [generate_bytes] returns
    a token, [validate] accepts the number its bytes spell,
    [int.from_bytes(token, "little")]; and a token is returned as soon as
    the updated counter, the process, the device and the tick fit their
    fields. *)
Theorem generate_then_validate (self : Flakely) (t : Q) (identifier : Z) :
  0 <= identifier < 2 ^ 32 ->
  (forall self' flake,
      generate self t identifier = (self', Ok flake) ->
      validate self' flake = Ok true /\ validate self flake = Ok true
      /\ forall v, secret v = secret self -> validate v flake = Ok true)
  /\ (forall self' bs,
      generate_bytes self t identifier = (self', Ok bs) ->
      validate self' (from_bytes bs) = Ok true)
  /\ (fits 2 (_generation_counter (update_counter self (get_tick t))) ->
      fits 4 (process self) -> fits 4 (device self) -> fits 4 (get_tick t) ->
      exists flake, snd (generate self t identifier) = Ok flake).
Proof.
  intros Hid.
  assert (B : forall self' bs v,
             generate_bytes self t identifier = (self', Ok bs) ->
             secret v = secret self ->
             validate v (from_bytes bs) = Ok true).
  { intros self' bs v E Es. apply generate_bytes_Ok_inv in E.
    destruct E as (_ & _ & ->). apply (validate_token_of self v). exact Es. }
  split; [|split].
  - intros self' flake E. rewrite generate_eq in E.
    destruct (generate_bytes self t identifier) as [s [bs|e]] eqn:G;
      cbn [fst snd bind] in E; [|discriminate].
    injection E as <- <-.
    assert (Es : secret s = secret self).
    { apply generate_bytes_Ok_inv in G. destruct G as (-> & _).
      apply update_counter_identity. }
    repeat split; eauto.
  - intros self' bs E. apply (B self' bs self' E).
    apply generate_bytes_Ok_inv in E. destruct E as (-> & _).
    apply update_counter_identity.
  - intros Fc Fp Fd Ft. rewrite generate_eq. cbn [snd].
    rewrite generate_bytes_fits; [cbn [snd bind]; eauto|].
    unfold payload_fits. rewrite fits4_iff. tauto.
Qed.

Lemma generate_then_validate_witness :
  0 <= 42 < 2 ^ 32
  /\ exists flake, snd (generate sample noon 42) = Ok flake
                   /\ validate sample flake = Ok true.
Proof.
  assert (R : 0 <= 42 < 2 ^ 32) by (split; [lia | reflexivity]).
  split; [exact R|].
  destruct (generate_then_validate sample noon 42 R) as (V & _ & S).
  destruct S as [flake E]; try fits_now.
  exists flake. split; [exact E|].
  destruct (generate sample noon 42) as [s r] eqn:G. cbn [snd] in E. subst r.
  exact (proj1 (proj2 (V s flake eq_refl))).
Defined.

(** C1, as stated, fails twice over.  Handed the token of
    [generate_bytes] as it is, [validate] raises [AttributeError], since
    a [bytearray] has no [to_bytes]; and not every instance returns a
    token for an identifier in range: with a device of [2^32] both
    [generate] and [generate_bytes] raise [OverflowError]. *)
Lemma validate_raises_on_generated_bytes :
  0 <= 42 < 2 ^ 32
  /\ (exists self' bs,
        generate_bytes sample noon 42 = (self', Ok bs)
        /\ validate_call self' (Bytearray bs) = AttributeError
        /\ validate_call self' (Bytearray bs) <> Returned true)
  /\ (let wide :=
        __init__ (linux 4242) 123456789123 (Some (2 ^ 32)) (Some 9)
          sample_secret in
      snd (generate wide noon 42) = Raise OverflowError
      /\ snd (generate_bytes wide noon 42) = Raise OverflowError).
Proof.
  split; [split; [lia | reflexivity]|]. split.
  - exists (update_counter sample 1700000000),
           (token_of sample 42 0 1700000000).
    split; [exact sample_mints|]. split; [reflexivity | discriminate].
  - intros wide.
    assert (NF : ~ payload_fits 42
                   (_generation_counter (update_counter wide (get_tick noon)))
                   (process wide) (device wide) (get_tick noon)).
    { intros (_ & _ & _ & [_ F] & _). vm_compute in F. discriminate F. }
    rewrite generate_eq, (generate_bytes_unfit _ _ _ NF). split; reflexivity.
Qed.

(** ** The layout of a token *)

Lemma from_bytes_is_little_endian (bs : list byte) :
  little_endian (from_bytes bs) bs.
Proof.
  rewrite <- (little_from_bytes bs) at 2. apply little_is_little_endian.
Qed.

Lemma token_of_fields (self : Flakely) (identifier counter tick : Z) :
  let bs := token_of self identifier counter tick in
  slice 0 4 bs = little 4 identifier
  /\ slice 4 2 bs = little 2 counter
  /\ slice 6 4 bs = little 4 (process self)
  /\ slice 10 4 bs = little 4 (device self)
  /\ slice 14 4 bs = little 4 tick
  /\ tok_payload bs =
       payload_bytes identifier counter (process self) (device self) tick
  /\ tok_signature bs =
       SHA256.digest
         (payload_bytes identifier counter (process self) (device self) tick
          ++ secret self).
Proof.
  intros bs.
  destruct (token_of_split self identifier counter tick) as [P S].
  assert (Sig : tok_signature bs =
                SHA256.digest
                  (payload_bytes identifier counter (process self)
                     (device self) tick ++ secret self)).
  { unfold tok_signature, slice, bs. rewrite S.
    rewrite <- (digest_length (payload_bytes identifier counter (process self)
                                 (device self) tick ++ secret self)) at 1.
    apply firstn_all. }
  assert (Pay : tok_payload bs =
                payload_bytes identifier counter (process self)
                  (device self) tick).
  { unfold tok_payload, slice, bs. rewrite skipn_O. exact P. }
  repeat split; try assumption;
    unfold bs, token_of, payload_bytes, slice; cbn [little app skipn firstn];
    reflexivity.
Qed.

Lemma generate_bytes_decodes (self self' : Flakely) (t : Q) (identifier : Z)
    (bs : list byte) :
  generate_bytes self t identifier = (self', Ok bs) ->
  tok_identifier bs = identifier
  /\ tok_counter bs = _generation_counter self'
  /\ tok_process bs = process self
  /\ tok_device bs = device self
  /\ tok_tick bs = get_tick t.
Proof.
  intros E. apply generate_bytes_Ok_inv in E.
  destruct E as (_ & (Fi & Fc & Fp & Fd & Ft) & ->).
  fold (token_of self identifier (_generation_counter self') (get_tick t)).
  destruct (token_of_fields self identifier (_generation_counter self')
              (get_tick t)) as (S1 & S2 & S3 & S4 & S5 & _).
  unfold tok_identifier, tok_counter, tok_process, tok_device, tok_tick.
  rewrite S1, S2, S3, S4, S5.
  repeat split; apply from_bytes_little_fits; assumption.
Qed.

(** C5: a token that [generate_bytes] returns has exactly 50 bytes: the
    identifier (4), the counter (2), the process (4), the device (4) and
    the tick (4), each little-endian, then 32 signature bytes; and
    [generate] returns the little-endian number these 50 bytes spell. *)
Theorem token_layout (self self' : Flakely) (t : Q) (identifier : Z)
    (bs : list byte) :
  generate_bytes self t identifier = (self', Ok bs) ->
  length bs = 50%nat
  /\ bs = little 4 identifier ++ little 2 (_generation_counter self')
          ++ little 4 (process self) ++ little 4 (device self)
          ++ little 4 (get_tick t) ++ tok_signature bs
  /\ length (tok_signature bs) = 32%nat
  /\ (little_endian identifier (slice 0 4 bs)
      /\ little_endian (_generation_counter self') (slice 4 2 bs)
      /\ little_endian (process self) (slice 6 4 bs)
      /\ little_endian (device self) (slice 10 4 bs)
      /\ little_endian (get_tick t) (slice 14 4 bs))
  /\ (tok_identifier bs = identifier
      /\ tok_counter bs = _generation_counter self'
      /\ tok_process bs = process self
      /\ tok_device bs = device self
      /\ tok_tick bs = get_tick t)
  /\ generate self t identifier = (self', Ok (from_bytes bs))
  /\ little_endian (from_bytes bs) bs
  /\ 0 <= from_bytes bs < 2 ^ 400.
Proof.
  intros E. pose proof (generate_bytes_length _ _ _ _ _ E) as L.
  pose proof E as E'. apply generate_bytes_Ok_inv in E'.
  destruct E' as (Es & (Fi & Fc & Fp & Fd & Ft) & Eb).
  fold (token_of self identifier (_generation_counter self') (get_tick t)) in Eb.
  destruct (token_of_fields self identifier (_generation_counter self')
              (get_tick t)) as (S1 & S2 & S3 & S4 & S5 & _ & Sig).
  rewrite <- Eb in S1, S2, S3, S4, S5, Sig.
  split; [exact L|]. split.
  { rewrite Sig. rewrite Eb at 1. unfold token_of, payload_bytes.
    repeat rewrite <- app_assoc. reflexivity. }
  split; [rewrite Sig; apply digest_length|]. split.
  { rewrite S1, S2, S3, S4, S5. repeat split; apply little_is_little_endian. }
  split; [exact (generate_bytes_decodes _ _ _ _ _ E)|].
  split; [rewrite generate_eq, E; reflexivity|].
  split; [apply from_bytes_is_little_endian|].
  pose proof (from_bytes_range bs) as R. rewrite L in R.
  apply (proj1 (fits50_iff (from_bytes bs))). exact R.
Qed.

Lemma token_layout_witness :
  let bs := token_of sample 42 0 1700000000 in
  length bs = 50%nat
  /\ (tok_identifier bs = 42 /\ tok_counter bs = 0 /\ tok_process bs = 9
      /\ tok_device bs = 7 /\ tok_tick bs = 1700000000)
  /\ snd (generate sample noon 42) = Ok (from_bytes bs).
Proof.
  intros bs.
  destruct (token_layout sample _ noon 42 bs sample_mints)
    as (L & _ & _ & _ & F & G & _ & _).
  split; [exact L|]. split; [exact F|]. rewrite G. reflexivity.
Defined.

(** ** The signature *)

(** C6: the last 32 bytes of a token are the SHA-256 digest of its first 18
    bytes (the payload) followed by the secret, which is what
    [get_signature] computes on the payload; two tokens minted with equal
    secrets and equal payload field values carry the same signature. *)
Theorem token_signature_is_digest (self self' : Flakely) (t : Q)
    (identifier : Z) (bs : list byte) :
  generate_bytes self t identifier = (self', Ok bs) ->
  bs = tok_payload bs ++ tok_signature bs
  /\ length (tok_payload bs) = 18%nat
  /\ length (tok_signature bs) = 32%nat
  /\ tok_payload bs =
       payload_bytes identifier (_generation_counter self') (process self)
         (device self) (get_tick t)
  /\ tok_signature bs = SHA256.digest (tok_payload bs ++ secret self)
  /\ tok_signature bs = get_signature self (tok_payload bs)
  /\ (forall other other' t2 identifier2 bs2,
        generate_bytes other t2 identifier2 = (other', Ok bs2) ->
        secret other = secret self ->
        tok_identifier bs2 = tok_identifier bs ->
        tok_counter bs2 = tok_counter bs ->
        tok_process bs2 = tok_process bs ->
        tok_device bs2 = tok_device bs ->
        tok_tick bs2 = tok_tick bs ->
        tok_signature bs2 = tok_signature bs).
Proof.
  intros E.
  pose proof (generate_bytes_decodes _ _ _ _ _ E) as F.
  pose proof E as E'. apply generate_bytes_Ok_inv in E'.
  destruct E' as (_ & _ & Eb).
  fold (token_of self identifier (_generation_counter self') (get_tick t)) in Eb.
  destruct (token_of_fields self identifier (_generation_counter self')
              (get_tick t)) as (_ & _ & _ & _ & _ & Pay & Sig).
  rewrite <- Eb in Pay, Sig.
  assert (Lp : length (tok_payload bs) = 18%nat).
  { rewrite Pay. unfold payload_bytes. repeat rewrite length_app.
    repeat rewrite little_length. reflexivity. }
  split; [rewrite Pay, Sig; exact Eb|].
  split; [exact Lp|].
  split; [rewrite Sig; apply digest_length|].
  split; [exact Pay|].
  split; [rewrite Pay; exact Sig|].
  split; [unfold get_signature; rewrite Pay; exact Sig|].
  intros other other' t2 identifier2 bs2 E2 Es Q1 Q2 Q3 Q4 Q5.
  pose proof (generate_bytes_decodes _ _ _ _ _ E2) as F'.
  destruct F as (A1 & A2 & A3 & A4 & A5), F' as (B1 & B2 & B3 & B4 & B5).
  apply generate_bytes_Ok_inv in E2. destruct E2 as (_ & _ & Eb2).
  fold (token_of other identifier2 (_generation_counter other') (get_tick t2))
    in Eb2.
  destruct (token_of_fields other identifier2 (_generation_counter other')
              (get_tick t2)) as (_ & _ & _ & _ & _ & _ & Sig2).
  rewrite <- Eb2 in Sig2. rewrite Sig, Sig2, Es.
  rewrite <- B1, <- B2, <- B3, <- B4, <- B5, Q1, Q2, Q3, Q4, Q5.
  rewrite A1, A2, A3, A4, A5. reflexivity.
Qed.

Lemma token_signature_is_digest_witness :
  let bs := token_of sample 42 0 1700000000 in
  tok_signature bs = SHA256.digest (tok_payload bs ++ sample_secret)
  /\ length (tok_payload bs) = 18%nat
  /\ length (tok_signature bs) = 32%nat.
Proof.
  intros bs.
  destruct (token_signature_is_digest sample _ noon 42 bs sample_mints)
    as (_ & Lp & Ls & _ & D & _).
  split; [exact D|]. split; [exact Lp | exact Ls].
Defined.

(** ** Errors *)

(** C7: an identifier of [2^32] or more does not fit the 4-byte field:
    [generate] and [generate_bytes] raise [OverflowError], the code's
    out-of-range error, and return no token. *)
Theorem generate_rejects_wide_identifier (self : Flakely) (t : Q)
    (identifier : Z) :
  2 ^ 32 <= identifier ->
  snd (generate self t identifier) = Raise OverflowError
  /\ snd (generate_bytes self t identifier) = Raise OverflowError
  /\ (forall flake, snd (generate self t identifier) <> Ok flake)
  /\ (forall bs, snd (generate_bytes self t identifier) <> Ok bs).
Proof.
  intros Wide.
  assert (NF : ~ fits 4 identifier) by (rewrite fits4_iff; lia).
  pose proof (generate_bytes_identifier_overflow self t identifier NF) as E.
  rewrite generate_eq, E. cbn [fst snd bind].
  repeat split; try reflexivity; intros x; discriminate.
Qed.

Lemma generate_rejects_wide_identifier_witness :
  2 ^ 32 <= 4294967296
  /\ snd (generate sample noon 4294967296) = Raise OverflowError.
Proof.
  assert (W : 2 ^ 32 <= 4294967296) by (apply Z.leb_le; reflexivity).
  split; [exact W|].
  exact (proj1 (generate_rejects_wide_identifier sample noon 4294967296 W)).
Defined.

(** C8: [validate] raises exactly when its argument has no 50-byte unsigned
    representation, that is when it is negative or at least [2^400]; on
    every other argument it returns a boolean, the outcome of comparing the
    last 32 bytes with the digest of the first 18 and the secret, so a
    mismatch gives [false] and not an error. *)
Theorem validate_raises_iff_unrepresentable (self : Flakely) (flake : Z) :
  ((exists e, validate self flake = Raise e) <-> flake < 0 \/ 2 ^ 400 <= flake)
  /\ ((exists b, validate self flake = Ok b) <-> 0 <= flake < 2 ^ 400)
  /\ (forall _flake,
        to_bytes flake 50 = Ok _flake ->
        validate self flake =
          Ok (bytes_eqb (skipn 18 _flake) (get_signature self (firstn 18 _flake)))
        /\ (skipn 18 _flake <> get_signature self (firstn 18 _flake) ->
            validate self flake = Ok false)).
Proof.
  assert (V : validate self flake =
              _flake <- to_bytes flake 50 ;;
              Ok (bytes_eqb (skipn 18 _flake)
                    (get_signature self (firstn 18 _flake)))) by reflexivity.
  pose proof (fits50_iff flake) as F.
  set (top := 2 ^ 400) in *. clearbody top.
  destruct (to_bytes flake 50) as [bs|e] eqn:T; cbn [bind] in V.
  - apply to_bytes_Ok_inv in T. destruct T as [Fit _]. apply F in Fit.
    split; [|split].
    + split; [intros [e E]; congruence | lia].
    + split; [intros _; exact Fit | eauto].
    + intros _flake E. injection E as <-. split; [exact V|].
      intros Ne. rewrite V. f_equal.
      destruct (bytes_eqb _ _) eqn:B; [|reflexivity].
      apply bytes_eqb_eq in B. contradiction.
  - assert (NF : ~ (0 <= flake < top)).
    { intros Fit. apply F in Fit. rewrite (to_bytes_fits _ _ Fit) in T.
      discriminate. }
    split; [|split].
    + split; [lia | eauto].
    + split; [intros [b E]; congruence | intros Fit; contradiction].
    + intros _flake E. discriminate.
Qed.

Lemma validate_raises_iff_unrepresentable_witness :
  validate sample (-1) = Raise OverflowError
  /\ validate sample (2 ^ 400) = Raise OverflowError
  /\ validate sample 12345 = Ok false.
Proof.
  split; [|split].
  - destruct (proj2 (proj1 (validate_raises_iff_unrepresentable sample (-1))))
      as [[] E]; [left; reflexivity | exact E].
  - destruct (proj2 (proj1 (validate_raises_iff_unrepresentable sample (2 ^ 400))))
      as [[] E]; [right; apply Z.leb_le; reflexivity | exact E].
  - destruct (validate_raises_iff_unrepresentable sample 12345) as (_ & _ & M).
    apply (M (little 50 12345)).
    + apply to_bytes_fits. fits_now.
    + intros H. vm_compute in H. discriminate H.
Defined.

(** C10: when the identifier does not fit, [generate] raises only after
    [update_counter] has run: the instance it leaves behind is the updated
    one, which always differs from the instance before the call, either in
    its counter (tick unchanged) or in its last tick (tick changed). *)
Theorem failed_generate_mutates_state (self : Flakely) (t : Q)
    (identifier : Z) :
  identifier < 0 \/ 2 ^ 32 <= identifier ->
  generate self t identifier =
    (update_counter self (get_tick t), Raise OverflowError)
  /\ generate_bytes self t identifier =
    (update_counter self (get_tick t), Raise OverflowError)
  /\ fst (generate self t identifier) <> self
  /\ (get_tick t = _last_generated self ->
      _generation_counter (fst (generate self t identifier)) =
        _generation_counter self + 1)
  /\ (get_tick t <> _last_generated self ->
      _last_generated (fst (generate self t identifier)) = get_tick t
      /\ _generation_counter (fst (generate self t identifier)) = 0).
Proof.
  intros Out.
  assert (NF : ~ fits 4 identifier) by (rewrite fits4_iff; lia).
  pose proof (generate_bytes_identifier_overflow self t identifier NF) as E.
  assert (G : generate self t identifier =
              (update_counter self (get_tick t), Raise OverflowError)).
  { rewrite generate_eq, E. reflexivity. }
  rewrite G. cbn [fst].
  split; [reflexivity|]. split; [exact E|].
  split; [apply update_counter_changes|]. split.
  - apply update_counter_same.
  - intros New. split; [apply update_counter_last | apply update_counter_new, New].
Qed.

Lemma failed_generate_mutates_state_witness :
  (4294967296 < 0 \/ 2 ^ 32 <= 4294967296)
  /\ snd (generate sample noon 4294967296) = Raise OverflowError
  /\ _last_generated sample = 0
  /\ _last_generated (fst (generate sample noon 4294967296)) = 1700000000.
Proof.
  assert (W : 4294967296 < 0 \/ 2 ^ 32 <= 4294967296)
    by (right; apply Z.leb_le; reflexivity).
  split; [exact W|].
  destruct (failed_generate_mutates_state sample noon 4294967296 W)
    as (G & _ & _ & _ & New).
  split; [rewrite G; reflexivity|]. split; [reflexivity|].
  apply New. vm_compute. discriminate.
Defined.

(** ** Runs of calls *)

Lemma token_of_ext (a b : Flakely) (identifier counter tick : Z) :
  device a = device b -> process a = process b -> secret a = secret b ->
  token_of a identifier counter tick = token_of b identifier counter tick.
Proof. unfold token_of. intros -> -> ->. reflexivity. Qed.

Lemma minted_ext (a b : Flakely) (identifier counter tick : Z) :
  device a = device b -> process a = process b -> secret a = secret b ->
  minted a identifier counter tick = minted b identifier counter tick.
Proof.
  intros D P S. unfold minted. rewrite (token_of_ext a b) by assumption.
  reflexivity.
Qed.

Lemma token_of_decodes (self : Flakely) (identifier counter tick : Z) :
  payload_fits identifier counter (process self) (device self) tick ->
  let bs := token_of self identifier counter tick in
  tok_counter bs = counter /\ tok_identifier bs = identifier
  /\ tok_process bs = process self /\ tok_device bs = device self
  /\ tok_tick bs = tick.
Proof.
  intros (Fi & Fc & Fp & Fd & Ft) bs.
  destruct (token_of_fields self identifier counter tick)
    as (S1 & S2 & S3 & S4 & S5 & _).
  fold bs in S1, S2, S3, S4, S5.
  unfold tok_identifier, tok_counter, tok_process, tok_device, tok_tick.
  rewrite S1, S2, S3, S4, S5.
  repeat split; apply from_bytes_little_fits; assumption.
Qed.

Lemma generate_bytes_minted (self : Flakely) (t : Q) (identifier : Z) :
  let self' := update_counter self (get_tick t) in
  fits 4 identifier -> fits 4 (process self) -> fits 4 (device self) ->
  fits 4 (get_tick t) -> 0 <= _generation_counter self' ->
  generate_bytes self t identifier =
    (self', minted self identifier (_generation_counter self') (get_tick t)).
Proof.
  intros self' Fi Fp Fd Ft Pos. unfold minted.
  destruct (Z.ltb_spec (_generation_counter self') 65536) as [Lt|Ge].
  - apply generate_bytes_fits. unfold payload_fits. rewrite fits2_iff.
    fold self'. tauto.
  - apply generate_bytes_counter_overflow; [exact Fi|].
    fold self'. rewrite fits2_iff. lia.
Qed.

Lemma generate_many_length (times : list Q) (self : Flakely) (identifier : Z) :
  length (snd (generate_many self times identifier)) = length times.
Proof.
  revert self. induction times as [|t times IH]; intros self; [reflexivity|].
  cbn [generate_many].
  destruct (generate_bytes self t identifier) as [s1 r].
  specialize (IH s1). destruct (generate_many s1 times identifier) as [s2 rs].
  cbn [snd length] in *. congruence.
Qed.

(** Runs in which every call sees the same tick, for one identifier;
    identifier and tick fit their fields. *)
Section Runs.

Variables identifier tick : Z.
Hypothesis Fi : fits 4 identifier.
Hypothesis Ft : fits 4 tick.

(** A run that continues a tick the instance is already in: call [k]
    carries the stored counter plus [k + 1]. *)
Lemma generate_many_in_tick (times : list Q) :
  Forall (fun t => get_tick t = tick) times ->
  forall self,
    fits 4 (process self) -> fits 4 (device self) ->
    _last_generated self = tick -> 0 <= _generation_counter self + 1 ->
    let run := generate_many self times identifier in
    (forall k, (k < length times)%nat ->
       nth_error (snd run) k =
         Some (minted self identifier
                 (_generation_counter self + 1 + Z.of_nat k) tick))
    /\ _generation_counter (fst run) =
         _generation_counter self + Z.of_nat (length times)
    /\ _last_generated (fst run) = tick.
Proof.
  intros Same. induction Same as [|t times Ht Same IH];
    intros self Fp Fd Last Pos run.
  - subst run. cbn [generate_many fst snd length].
    split; [intros k Hk; inversion Hk|]. split; [lia | exact Last].
  - subst run. cbn [generate_many].
    destruct (update_counter_identity self (get_tick t)) as (Ed & Ep & Es).
    assert (C1 : _generation_counter (update_counter self (get_tick t)) =
                 _generation_counter self + 1).
    { apply update_counter_same. congruence. }
    rewrite generate_bytes_minted; rewrite ?C1, ?Ht; try assumption.
    set (s1 := update_counter self tick) in *.
    assert (L1 : _last_generated s1 = tick) by apply update_counter_last.
    rewrite Ht in *. fold s1 in Ed, Ep, Es, C1.
    specialize (IH s1). rewrite Ep, Ed, C1 in IH.
    specialize (IH Fp Fd L1 ltac:(lia)). cbn zeta in IH.
    destruct (generate_many s1 times identifier) as [s2 rs].
    cbn [fst snd length] in *. destruct IH as (Nth & Cnt & Lst).
    split; [|split; [lia | exact Lst]].
    intros [|k] Hk; cbn [nth_error].
    + rewrite Z.add_0_r. reflexivity.
    + rewrite Nth by lia.
      rewrite (minted_ext s1 self) by assumption.
      do 2 f_equal. lia.
Qed.

(** A run that opens a tick new to the instance: call [k] carries [k]. *)
Lemma generate_many_new_tick (times : list Q) (self : Flakely) :
  Forall (fun t => get_tick t = tick) times ->
  fits 4 (process self) -> fits 4 (device self) ->
  _last_generated self <> tick ->
  let run := generate_many self times identifier in
  (forall k, (k < length times)%nat ->
     nth_error (snd run) k = Some (minted self identifier (Z.of_nat k) tick))
  /\ (times <> [] ->
      _generation_counter (fst run) = Z.of_nat (length times) - 1).
Proof.
  intros Same Fp Fd New run. subst run.
  destruct Same as [|t times Ht Same].
  - split; [intros k Hk; inversion Hk | congruence].
  - cbn [generate_many].
    destruct (update_counter_identity self (get_tick t)) as (Ed & Ep & Es).
    assert (C0 : _generation_counter (update_counter self (get_tick t)) = 0).
    { apply update_counter_new. congruence. }
    rewrite generate_bytes_minted; rewrite ?C0, ?Ht; try assumption; [|lia].
    rewrite Ht in *.
    set (s1 := update_counter self tick) in *.
    assert (L1 : _last_generated s1 = tick) by apply update_counter_last.
    destruct (generate_many_in_tick times Same s1)
      as (Nth & Cnt & _); rewrite ?Ep, ?Ed, ?C0; try assumption; [lia|].
    destruct (generate_many s1 times identifier) as [s2 rs].
    cbn [fst snd length] in *. split.
    + intros [|k] Hk; cbn [nth_error]; [reflexivity|].
      rewrite Nth by lia. rewrite (minted_ext s1 self) by assumption.
      rewrite C0. do 2 f_equal. lia.
    + intros _. rewrite Cnt, C0. lia.
Qed.

End Runs.

(** ** The counter *)



(** C2, as the code has it: on an instance for which the tick is new (its
    stored last tick is another one), with identifier, process, device and
    tick fitting their 4 bytes, [N < 65536] calls that all see this tick
    return [N] tokens, call [k] with counter field [k], and all with the
    same identifier, process, device and tick fields. *)
Theorem counters_within_a_tick (self : Flakely) (times : list Q)
    (identifier tick : Z) :
  Z.of_nat (length times) < 65536 ->
  Forall (fun t => get_tick t = tick) times ->
  _last_generated self <> tick ->
  fits 4 identifier -> fits 4 (process self) -> fits 4 (device self) ->
  fits 4 tick ->
  counts_from_zero self times identifier tick.
Proof.
  intros N Same New Fi Fp Fd Ft. unfold counts_from_zero.
  split; [apply generate_many_length|].
  intros k Hk.
  destruct (generate_many_new_tick identifier tick Fi Ft times self Same Fp Fd
              New) as [Nth _].
  rewrite (Nth k Hk). unfold minted.
  destruct (Z.ltb_spec (Z.of_nat k) 65536); [|lia].
  eexists. split; [reflexivity|].
  apply token_of_decodes. apply payload_fits_intro; try assumption. lia.
Qed.

Lemma counters_within_a_tick_witness :
  counts_from_zero sample [noon; noon; noon] 42 1700000000.
Proof.
  apply counters_within_a_tick; try fits_now.
  - reflexivity.
  - repeat constructor.
  - vm_compute. discriminate.
Defined.

(** C2, as stated, fails on a fresh instance when the clock reads less
    than one second: tick 0 is the initial value of the stored last tick,
    so the first call already increments the counter and the counter
    fields are 1 and 2, not 0 and 1. *)
Lemma counters_at_epoch_start_from_one :
  Z.of_nat (length [1 # 2; 3 # 4]) < 65536
  /\ Forall (fun t => get_tick t = 0) [1 # 2; 3 # 4]
  /\ (exists b0 b1,
        snd (generate_many sample [1 # 2; 3 # 4] 42) = [Ok b0; Ok b1]
        /\ tok_counter b0 = 1 /\ tok_counter b1 = 2)
  /\ ~ counts_from_zero sample [1 # 2; 3 # 4] 42 0.
Proof.
  split; [reflexivity|]. split; [repeat constructor|].
  assert (R : exists b0 b1,
             snd (generate_many sample [1 # 2; 3 # 4] 42) = [Ok b0; Ok b1]
             /\ tok_counter b0 = 1 /\ tok_counter b1 = 2).
  { assert (T : match snd (generate_many sample [1 # 2; 3 # 4] 42) with
                 | [Ok b0; Ok b1] => (tok_counter b0 =? 1) && (tok_counter b1 =? 2)
                 | _ => false
                 end = true) by (vm_compute; reflexivity).
    destruct (snd (generate_many sample [1 # 2; 3 # 4] 42))
      as [|[b0|] [|[b1|] [|]]]; try discriminate T.
    apply andb_true_iff in T. destruct T as [T0 T1].
    apply Z.eqb_eq in T0, T1. exists b0, b1. auto. }
  split; [exact R|].
  destruct R as (b0 & b1 & E & C0 & _).
  intros [_ H]. destruct (H 0%nat) as (bs & Nth & C & _); [cbn; lia|].
  rewrite E in Nth. cbn [nth_error] in Nth. injection Nth as <-.
  change (Z.of_nat 0) with 0 in C. lia.
Qed.

(** C3, as the code has it: nothing truncates the counter.  In a run of
    calls on a tick new to the instance, call [k] (from 0) returns a token
    with counter [k] while [k < 65536]; from call number 65537 on, the
    stored counter no longer fits two bytes and every call raises
    [OverflowError]; the stored counter keeps counting. *)
Theorem counter_overflow_raises (self : Flakely) (times : list Q)
    (identifier tick : Z) :
  Forall (fun t => get_tick t = tick) times ->
  _last_generated self <> tick ->
  fits 4 identifier -> fits 4 (process self) -> fits 4 (device self) ->
  fits 4 tick ->
  let run := generate_many self times identifier in
  (forall k, (k < length times)%nat -> 65536 <= Z.of_nat k ->
     nth_error (snd run) k = Some (Raise OverflowError))
  /\ (forall k, (k < length times)%nat -> Z.of_nat k < 65536 ->
        exists bs, nth_error (snd run) k = Some (Ok bs)
                   /\ tok_counter bs = Z.of_nat k)
  /\ (times <> [] ->
      _generation_counter (fst run) = Z.of_nat (length times) - 1).
Proof.
  intros Same New Fi Fp Fd Ft run.
  destruct (generate_many_new_tick identifier tick Fi Ft times self Same Fp Fd
              New) as [Nth Cnt].
  fold run in Nth, Cnt. split; [|split; [|exact Cnt]].
  - intros k Hk Big. rewrite (Nth k Hk). unfold minted.
    destruct (Z.ltb_spec (Z.of_nat k) 65536); [lia | reflexivity].
  - intros k Hk Small. rewrite (Nth k Hk). unfold minted.
    destruct (Z.ltb_spec (Z.of_nat k) 65536); [|lia].
    eexists. split; [reflexivity|].
    apply token_of_decodes. apply payload_fits_intro; try assumption. lia.
Qed.

Lemma repeat_same_tick (t : Q) (n : nat) :
  Forall (fun t' => get_tick t' = get_tick t) (repeat t n).
Proof.
  apply Forall_forall. intros x Hx. apply repeat_spec in Hx. subst x.
  reflexivity.
Qed.

Lemma counter_overflow_raises_witness :
  let run := generate_many sample (repeat noon (Z.to_nat 65537)) 42 in
  nth_error (snd run) (Z.to_nat 65536) = Some (Raise OverflowError)
  /\ _generation_counter (fst run) = 65536.
Proof.
  intros run.
  assert (New : _last_generated sample <> get_tick noon)
    by (vm_compute; discriminate).
  assert (Fi : fits 4 42) by fits_now.
  assert (Fp : fits 4 (process sample)) by fits_now.
  assert (Fd : fits 4 (device sample)) by fits_now.
  assert (Ft : fits 4 (get_tick noon)) by fits_now.
  destruct (counter_overflow_raises sample (repeat noon (Z.to_nat 65537)) 42
              (get_tick noon) (repeat_same_tick noon _) New Fi Fp Fd Ft)
    as (Big & _ & Cnt).
  fold run in Big, Cnt. split.
  - apply Big; rewrite ?repeat_length; lia.
  - rewrite Cnt.
    + rewrite repeat_length. lia.
    + intros E. apply (f_equal (@length Q)) in E.
      rewrite repeat_length in E. cbn [length] in E. lia.
Defined.

(** C3, as stated, fails: on the sample instance, call number 65537 of a
    run on one tick raises [OverflowError]; it returns no token, so none
    with counter field 0. *)
Lemma call_65537_raises :
  let times := repeat noon (Z.to_nat 65537) in
  Forall (fun t => get_tick t = 1700000000) times
  /\ nth_error (snd (generate_many sample times 42)) (Z.to_nat 65536)
     = Some (Raise OverflowError)
  /\ ~ wraps_to_zero sample times 42.
Proof.
  intros times.
  assert (Same : Forall (fun t => get_tick t = 1700000000) times)
    by apply (repeat_same_tick noon).
  assert (R : nth_error (snd (generate_many sample times 42)) (Z.to_nat 65536)
              = Some (Raise OverflowError)).
  { assert (New : _last_generated sample <> 1700000000)
      by (vm_compute; discriminate).
    assert (Fi : fits 4 42) by fits_now.
    assert (Fp : fits 4 (process sample)) by fits_now.
    assert (Fd : fits 4 (device sample)) by fits_now.
    assert (Ft : fits 4 1700000000) by fits_now.
    destruct (generate_many_new_tick 42 1700000000 Fi Ft times sample Same
                Fp Fd New) as [Nth _].
    rewrite Nth by (unfold times; rewrite repeat_length; lia).
    unfold minted.
    destruct (Z.ltb_spec (Z.of_nat (Z.to_nat 65536)) 65536); [lia|].
    reflexivity. }
  split; [exact Same|]. split; [exact R|].
  intros (bs & E & _). rewrite R in E. discriminate E.
Qed.

(** ** Construction *)

Lemma default_process_is_P_PID (os : os_module) (entropy : Z)
    (device : option Z) (secret : list byte) :
  process (__init__ os entropy device None secret) = P_PID os.
Proof. reflexivity. Qed.

Lemma explicit_process_is_kept (os : os_module) (entropy p : Z)
    (device : option Z) (secret : list byte) :
  process (__init__ os entropy device (Some p) secret) = p.
Proof. reflexivity. Qed.

Lemma default_device_fits (os : os_module) (entropy : Z)
    (process : option Z) (secret : list byte) :
  fits 4 (device (__init__ os entropy None process secret)).
Proof.
  apply fits4_iff. cbn. unfold randbelow. apply Z.mod_pos_bound. reflexivity.
Qed.

(** C9: constructed without a [process] argument inside process 4242, the
    instance does not carry 4242: its process field is the constant
    [os.P_PID], which is 1 whatever process runs the code. *)
Theorem default_process_is_not_the_pid :
  getpid (linux 4242) = 4242
  /\ process (__init__ (linux 4242) 123456789123 None None []) = 1
  /\ process (__init__ (linux 4242) 123456789123 None None [])
     <> getpid (linux 4242)
  /\ forall pid entropy secret,
       process (__init__ (linux pid) entropy None None secret) = 1.
Proof.
  split; [reflexivity|]. split; [reflexivity|].
  split; [cbn; discriminate | reflexivity].
Qed.

(** * Further properties of the code *)

(** ** When a call returns a token *)

(** X1: a call returns a token exactly when the identifier, the counter
    as just updated, the process, the device and the tick all fit their
    fields; in every other case, a negative identifier or tick included,
    [generate_bytes] and [generate] raise [OverflowError], the instance
    being updated all the same. *)
Theorem generate_returns_iff_fields_fit (self : Flakely) (t : Q)
    (identifier : Z) :
  let self' := update_counter self (get_tick t) in
  let fit := payload_fits identifier (_generation_counter self')
               (process self) (device self) (get_tick t) in
  (fit ->
   generate_bytes self t identifier =
     (self', Ok (token_of self identifier (_generation_counter self')
                   (get_tick t))))
  /\ (~ fit ->
      generate_bytes self t identifier = (self', Raise OverflowError)
      /\ generate self t identifier = (self', Raise OverflowError))
  /\ ((exists bs, snd (generate_bytes self t identifier) = Ok bs) <-> fit)
  /\ ((exists flake, snd (generate self t identifier) = Ok flake) <-> fit).
Proof.
  intros self' fit.
  assert (Yes : fit ->
                generate_bytes self t identifier =
                  (self', Ok (token_of self identifier
                                (_generation_counter self') (get_tick t)))).
  { intros F. apply generate_bytes_fits. exact F. }
  assert (No : ~ fit ->
               generate_bytes self t identifier = (self', Raise OverflowError)).
  { apply generate_bytes_unfit. }
  assert (Dec : fit \/ ~ fit).
  { unfold fit, payload_fits. rewrite !fits4_iff, fits2_iff. lia. }
  split; [exact Yes|]. split.
  { intros NF. split; [exact (No NF)|]. rewrite generate_eq, (No NF).
    reflexivity. }
  split.
  - split.
    + intros [bs E]. destruct Dec as [F|NF]; [exact F|].
      rewrite (No NF) in E. discriminate E.
    + intros F. rewrite (Yes F). cbn [snd]. eauto.
  - split.
    + intros [flake E]. destruct Dec as [F|NF]; [exact F|].
      rewrite generate_eq, (No NF) in E. discriminate E.
    + intros F. rewrite generate_eq, (Yes F). cbn [snd bind]. eauto.
Qed.

Lemma generate_returns_iff_fields_fit_witness :
  snd (generate sample noon (-1)) = Raise OverflowError
  /\ snd (generate sample (-3 # 2) 42) = Raise OverflowError
  /\ exists flake, snd (generate sample noon 42) = Ok flake.
Proof.
  destruct (generate_returns_iff_fields_fit sample noon (-1))
    as (_ & No1 & _).
  destruct (generate_returns_iff_fields_fit sample (-3 # 2) 42)
    as (_ & No2 & _).
  destruct (generate_returns_iff_fields_fit sample noon 42)
    as (_ & _ & _ & Yes).
  split; [|split].
  - destruct No1 as [_ G]; [|rewrite G; reflexivity].
    intros ([F _] & _). apply F. reflexivity.
  - destruct No2 as [_ G]; [|rewrite G; reflexivity].
    intros (_ & _ & _ & _ & [F _]). apply F. reflexivity.
  - apply Yes. apply payload_fits_intro; fits_now.
Defined.

(** X2: the number [generate] returns and the bytes [generate_bytes]
    returns carry the same information: converting the number back with
    [to_bytes(50, "little")] gives the bytes, also when the leading bytes
    of the signature are zero, and both calls raise together. *)
Theorem generate_bytes_from_number (self : Flakely) (t : Q) (identifier : Z) :
  fst (generate self t identifier) = fst (generate_bytes self t identifier)
  /\ snd (generate_bytes self t identifier) =
       (flake <- snd (generate self t identifier) ;; to_bytes flake 50)
  /\ forall bs,
       snd (generate_bytes self t identifier) = Ok bs ->
       snd (generate self t identifier) = Ok (from_bytes bs)
       /\ to_bytes (from_bytes bs) 50 = Ok bs.
Proof.
  rewrite generate_eq. cbn [fst snd].
  destruct (generate_bytes self t identifier) as [s [bs|e]] eqn:E;
    cbn [fst snd bind].
  - pose proof (generate_bytes_length _ _ _ _ _ E) as L.
    assert (R : to_bytes (from_bytes bs) 50 = Ok bs).
    { rewrite <- L. apply to_bytes_from_bytes. }
    split; [reflexivity|]. split; [symmetry; exact R|].
    intros bs' E'. injection E' as <-. split; [reflexivity | exact R].
  - split; [reflexivity|]. split; [reflexivity|]. intros bs E'. discriminate E'.
Qed.

(** ** What [validate] accepts *)

Lemma from_bytes_inj (a b : list byte) :
  length a = length b -> from_bytes a = from_bytes b -> a = b.
Proof.
  intros L E. rewrite <- (little_from_bytes a), <- (little_from_bytes b).
  rewrite L, E. reflexivity.
Qed.

(** X3: [validate] looks at nothing but the bytes and the secret.  For
    any 18 bytes [p] and 32 bytes [sg], the number spelled by [p ++ sg] is
    accepted exactly when [sg] is the SHA-256 digest of [p] followed by the
    secret; so every 18-byte payload signed with the secret validates,
    whether or not any instance ever minted it. *)
Theorem validate_accepts_exactly_signed (self : Flakely) (p sg : list byte) :
  length p = 18%nat -> length sg = 32%nat ->
  validate self (from_bytes (p ++ sg)) =
    Ok (bytes_eqb sg (get_signature self p))
  /\ (validate self (from_bytes (p ++ sg)) = Ok true <->
      sg = SHA256.digest (p ++ secret self))
  /\ validate self (from_bytes (p ++ get_signature self p)) = Ok true.
Proof.
  intros Lp Ls.
  assert (V : forall s, length s = 32%nat ->
              validate self (from_bytes (p ++ s)) =
                Ok (bytes_eqb s (get_signature self p))).
  { intros s L. unfold validate.
    change (COUNTER_SIZE + DEVICE_ID_SIZE + IDENTIFIER_SIZE + PROCESS_ID_SIZE
            + TICK_SIZE)%nat with 18%nat.
    change (18 + SIGNATURE_SIZE)%nat with 50%nat.
    assert (L50 : length (p ++ s) = 50%nat)
      by (rewrite length_app, Lp, L; reflexivity).
    rewrite <- L50 at 1. rewrite to_bytes_from_bytes. cbn [bind].
    rewrite firstn_app, skipn_app, Lp, Nat.sub_diag, firstn_O, skipn_O.
    rewrite app_nil_r. rewrite <- Lp, firstn_all, skipn_all. reflexivity. }
  split; [apply V, Ls|]. split.
  - rewrite (V sg Ls). unfold get_signature. split.
    + intros E. injection E as E. apply bytes_eqb_eq. exact E.
    + intros E. f_equal. apply bytes_eqb_eq. exact E.
  - rewrite V by apply digest_length. f_equal. apply bytes_eqb_eq. reflexivity.
Qed.

Lemma validate_accepts_exactly_signed_witness :
  validate sample
    (from_bytes (repeat x00 18 ++ get_signature sample (repeat x00 18)))
  = Ok true.
Proof.
  exact (proj2 (proj2 (validate_accepts_exactly_signed sample (repeat x00 18)
                         (get_signature sample (repeat x00 18))
                         eq_refl (digest_length _)))).
Defined.

(** ** The clock window *)

Lemma quot_window (n d top : Z) :
  0 < d -> 0 < top ->
  (0 <= Z.quot n d < top <-> - d < n /\ n < top * d).
Proof.
  intros Hd Ht. pose proof (Z.mul_pos_pos top d Ht Hd) as Prod.
  destruct (Z_lt_le_dec n 0) as [Neg|Pos].
  - assert (Q : Z.quot n d = - (- n / d)).
    { rewrite <- (Z.opp_involutive n) at 1.
      rewrite Z.quot_opp_l by lia. rewrite Z.quot_div_nonneg by lia.
      reflexivity. }
    rewrite Q.
    pose proof (Z.div_pos (- n) d ltac:(lia) Hd) as Nn.
    split.
    + intros H. assert (Q0 : - n / d = 0) by lia.
      apply Z.div_small_iff in Q0; lia.
    + intros H. rewrite Z.div_small by lia. lia.
  - rewrite Z.quot_div_nonneg by lia.
    pose proof (Z.div_pos n d Pos Hd) as Nn.
    split.
    + intros [_ H]. split; [lia|].
      pose proof (Z.mul_succ_div_gt n d Hd) as Hi. nia.
    + intros [_ H]. split; [exact Nn|].
      apply Z.div_lt_upper_bound; lia.
Qed.

(** X4: the tick fits its 4-byte field exactly when the clock reads more
    than -1 and less than 2^32 seconds: [int] rounds towards zero, so the
    last second before the epoch still gives tick 0, and outside this
    window no call can return a token. *)
Theorem tick_fits_iff_clock_in_window (time_time : Q) :
  (fits 4 (get_tick time_time) <->
   (inject_Z (-1) < time_time)%Q /\ (time_time < inject_Z (2 ^ 32))%Q)
  /\ ((time_time <= inject_Z (-1))%Q \/ (inject_Z (2 ^ 32) <= time_time)%Q ->
      forall self identifier,
        snd (generate self time_time identifier) = Raise OverflowError
        /\ snd (generate_bytes self time_time identifier)
           = Raise OverflowError).
Proof.
  assert (W : fits 4 (get_tick time_time) <->
              (inject_Z (-1) < time_time)%Q
              /\ (time_time < inject_Z (2 ^ 32))%Q).
  { rewrite fits4_iff. destruct time_time as [n d].
    unfold get_tick, Qlt, inject_Z. cbn [Qnum Qden].
    rewrite (quot_window n (Z.pos d) (2 ^ 32)) by (reflexivity || lia).
    lia. }
  split; [exact W|].
  intros Out self identifier.
  assert (NF : ~ payload_fits identifier
                 (_generation_counter (update_counter self (get_tick time_time)))
                 (process self) (device self) (get_tick time_time)).
  { intros (_ & _ & _ & _ & F). apply W in F. destruct F as [Lo Hi].
    destruct Out as [O|O].
    - apply (Qlt_not_le _ _ Lo). exact O.
    - apply (Qlt_not_le _ _ Hi). exact O. }
  rewrite generate_eq, (generate_bytes_unfit _ _ _ NF). split; reflexivity.
Qed.

Lemma tick_fits_iff_clock_in_window_witness :
  fits 4 (get_tick (- 1 # 2))
  /\ snd (generate sample (-1 # 1) 42) = Raise OverflowError
  /\ snd (generate sample (4294967296 # 1) 42) = Raise OverflowError.
Proof.
  split; [|split].
  - apply (proj1 (tick_fits_iff_clock_in_window (- 1 # 2))).
    split; reflexivity.
  - apply (proj2 (tick_fits_iff_clock_in_window (-1 # 1))).
    left. unfold Qle. cbn. lia.
  - apply (proj2 (tick_fits_iff_clock_in_window (4294967296 # 1))).
    right. unfold Qle. cbn. lia.
Defined.

(** ** Tokens that cannot coincide *)

(** X5: two consecutive calls on one instance that both return a token
    never return the same one, as bytes or as numbers, whatever the two
    clock readings and identifiers: either the tick field differs or the
    counter field does. *)
Theorem consecutive_tokens_differ (self s1 s2 : Flakely) (t1 t2 : Q)
    (identifier1 identifier2 : Z) (b1 b2 : list byte) :
  generate_bytes self t1 identifier1 = (s1, Ok b1) ->
  generate_bytes s1 t2 identifier2 = (s2, Ok b2) ->
  b1 <> b2 /\ from_bytes b1 <> from_bytes b2.
Proof.
  intros E1 E2.
  destruct (generate_bytes_decodes _ _ _ _ _ E1) as (_ & C1 & _ & _ & T1).
  destruct (generate_bytes_decodes _ _ _ _ _ E2) as (_ & C2 & _ & _ & T2).
  pose proof (generate_bytes_length _ _ _ _ _ E1) as L1.
  pose proof (generate_bytes_length _ _ _ _ _ E2) as L2.
  apply generate_bytes_Ok_inv in E1, E2.
  destruct E1 as (S1 & _), E2 as (S2 & _).
  assert (Last : _last_generated s1 = get_tick t1)
    by (rewrite S1; apply update_counter_last).
  assert (Ne : b1 <> b2).
  { intros Same. subst b2. rewrite T1 in T2.
    assert (Step : _generation_counter s2 = _generation_counter s1 + 1).
    { rewrite S2. apply update_counter_same. congruence. }
    rewrite C1 in C2. lia. }
  split; [exact Ne|].
  intros Same. apply Ne. apply from_bytes_inj; congruence.
Qed.

Lemma consecutive_tokens_differ_witness :
  token_of sample 42 0 1700000000 <> token_of sample 42 1 1700000000.
Proof.
  refine (proj1 (consecutive_tokens_differ sample _ _ noon noon 42 42 _ _
                   sample_mints _)).
  apply (generate_bytes_fits (update_counter sample 1700000000) noon 42).
  apply payload_fits_intro; fits_now.
Defined.

(** X6: tokens minted by instances that differ in device or in process,
    or minted for different identifiers, are different tokens, as bytes
    and as numbers, whatever their ticks, counters and secrets. *)
Theorem distinct_origins_distinct_tokens (a a' b b' : Flakely) (t1 t2 : Q)
    (identifier1 identifier2 : Z) (x y : list byte) :
  generate_bytes a t1 identifier1 = (a', Ok x) ->
  generate_bytes b t2 identifier2 = (b', Ok y) ->
  device a <> device b \/ process a <> process b
  \/ identifier1 <> identifier2 ->
  x <> y /\ from_bytes x <> from_bytes y.
Proof.
  intros Ex Ey Diff.
  destruct (generate_bytes_decodes _ _ _ _ _ Ex) as (I1 & _ & P1 & D1 & _).
  destruct (generate_bytes_decodes _ _ _ _ _ Ey) as (I2 & _ & P2 & D2 & _).
  pose proof (generate_bytes_length _ _ _ _ _ Ex) as L1.
  pose proof (generate_bytes_length _ _ _ _ _ Ey) as L2.
  assert (Ne : x <> y).
  { intros Same. subst y. destruct Diff as [D|[D|D]]; congruence. }
  split; [exact Ne|].
  intros Same. apply Ne. apply from_bytes_inj; congruence.
Qed.

Lemma distinct_origins_distinct_tokens_witness :
  token_of sample 42 0 1700000000 <> token_of sample 43 0 1700000000.
Proof.
  refine (proj1 (distinct_origins_distinct_tokens sample _ sample _ noon noon
                   42 43 _ _ sample_mints _ _)).
  - apply (generate_bytes_fits sample noon 43).
    apply payload_fits_intro; fits_now.
  - right. right. discriminate.
Defined.

(** ** What a run of calls keeps *)

Lemma generate_many_identity (times : list Q) (self : Flakely)
    (identifier : Z) :
  let self' := fst (generate_many self times identifier) in
  device self' = device self /\ process self' = process self
  /\ secret self' = secret self.
Proof.
  revert self. induction times as [|t times IH]; intros self; cbn zeta.
  - cbn. auto.
  - cbn [generate_many].
    pose proof (generate_bytes_state self t identifier) as St.
    destruct (generate_bytes self t identifier) as [s1 r]. cbn [fst] in St.
    specialize (IH s1). cbn zeta in IH.
    destruct (generate_many s1 times identifier) as [s2 rs]. cbn [fst] in *.
    destruct (update_counter_identity self (get_tick t)) as (D & P & S).
    rewrite <- St in D, P, S. destruct IH as (D' & P' & S').
    repeat split; congruence.
Qed.

(** X7: calls never touch the device, the process or the secret of the
    instance, so a token the instance returned stays valid on it however
    many calls follow, failed ones included. *)
Theorem token_stays_valid (self s1 : Flakely) (t : Q) (identifier : Z)
    (flake : Z) :
  generate self t identifier = (s1, Ok flake) ->
  forall times identifier',
    let later := fst (generate_many s1 times identifier') in
    validate later flake = Ok true
    /\ device later = device self /\ process later = process self
    /\ secret later = secret self.
Proof.
  intros G times identifier' later. rewrite generate_eq in G.
  destruct (generate_bytes self t identifier) as [s [bs|e]] eqn:E;
    cbn [fst snd bind] in G; [|discriminate G].
  injection G as <- <-.
  apply generate_bytes_Ok_inv in E. destruct E as (S1 & _ & ->).
  destruct (update_counter_identity self (get_tick t)) as (D & P & S).
  rewrite <- S1 in D, P, S.
  destruct (generate_many_identity times s identifier') as (D' & P' & S').
  fold later in D', P', S'.
  split; [|repeat split; congruence].
  apply (validate_token_of self later). congruence.
Qed.

Lemma token_stays_valid_witness :
  validate (fst (generate_many (update_counter sample 1700000000)
                   [noon; 5 # 1; - 7 # 1] 4294967296))
    (from_bytes (token_of sample 42 0 1700000000)) = Ok true.
Proof.
  refine (proj1 (token_stays_valid sample _ noon 42 _ _
                   [noon; 5 # 1; - 7 # 1] 4294967296)).
  rewrite generate_eq, sample_mints. reflexivity.
Defined.

Lemma generate_many_unfit_identity (times : list Q) (self : Flakely)
    (identifier : Z) :
  ~ fits 4 (device self) \/ ~ fits 4 (process self) ->
  Forall (fun r => r = Raise OverflowError)
    (snd (generate_many self times identifier)).
Proof.
  revert self. induction times as [|t times IH]; intros self Bad;
    [constructor|].
  cbn [generate_many]. rewrite generate_bytes_unfit.
  - destruct (update_counter_identity self (get_tick t)) as (D & P & _).
    specialize (IH (update_counter self (get_tick t))).
    rewrite D, P in IH. specialize (IH Bad).
    destruct (generate_many (update_counter self (get_tick t)) times identifier)
      as [s2 rs]. cbn [snd] in *. constructor; [reflexivity | exact IH].
  - intros (_ & _ & Fp & Fd & _). tauto.
Qed.

(** X8: the constructor stores an explicit device and process unchecked;
    when either does not fit 4 unsigned bytes, construction succeeds but
    the instance can never return a token: every call raises
    [OverflowError], whatever the clock and the identifier. *)
Theorem unchecked_identity_never_mints (os : os_module) (entropy d p : Z)
    (secret : list byte) (times : list Q) (identifier : Z) :
  ~ (0 <= d < 2 ^ 32) \/ ~ (0 <= p < 2 ^ 32) ->
  let self := __init__ os entropy (Some d) (Some p) secret in
  device self = d /\ process self = p
  /\ Forall (fun r => r = Raise OverflowError)
       (snd (generate_many self times identifier)).
Proof.
  intros Bad self. split; [reflexivity|]. split; [reflexivity|].
  apply generate_many_unfit_identity.
  change (device self) with d. change (process self) with p.
  rewrite !fits4_iff. exact Bad.
Qed.

Lemma unchecked_identity_never_mints_witness :
  snd (generate_many (__init__ (linux 4242) 0 (Some 7) (Some (-1)) [])
         [noon; noon] 42)
  = [Raise OverflowError; Raise OverflowError].
Proof.
  assert (Bad : ~ (0 <= 7 < 2 ^ 32) \/ ~ (0 <= -1 < 2 ^ 32))
    by (right; intros [N _]; apply N; reflexivity).
  destruct (unchecked_identity_never_mints (linux 4242) 0 7 (-1) []
              [noon; noon] 42 Bad) as (_ & _ & All).
  destruct (snd (generate_many (__init__ (linux 4242) 0 (Some 7) (Some (-1)) [])
                   [noon; noon] 42)) as [|r1 [|r2 [|r3 rs]]] eqn:E;
    try (apply (f_equal (@length _)) in E;
         rewrite generate_many_length in E; discriminate E).
  inversion All as [|? ? H1 All1]; subst.
  inversion All1 as [|? ? H2 _]; subst. reflexivity.
Defined.

(** ** Uniqueness and the direction of the clock *)

Lemma generate_many_Ok_length (times : list Q) (self : Flakely)
    (identifier : Z) (k : nat) (bs : list byte) :
  nth_error (snd (generate_many self times identifier)) k = Some (Ok bs) ->
  length bs = 50%nat.
Proof.
  revert self k. induction times as [|t times IH]; intros self k.
  - destruct k; discriminate.
  - cbn [generate_many].
    destruct (generate_bytes self t identifier) as [s1 r] eqn:E.
    specialize (IH s1).
    destruct (generate_many s1 times identifier) as [s2 rs]. cbn [snd] in *.
    destruct k as [|k]; cbn [nth_error].
    + intros H. injection H as ->. exact (generate_bytes_length _ _ _ _ _ E).
    + apply IH.
Qed.

(** With a clock that does not go back, every token of a run lies after
    the state the run started from: a later tick, or the same tick and a
    larger counter. *)
Lemma generate_many_after (times : list Q) (identifier : Z) :
  StronglySorted Z.le (map get_tick times) ->
  forall self k bs,
    Forall (fun t => _last_generated self <= get_tick t) times ->
    nth_error (snd (generate_many self times identifier)) k = Some (Ok bs) ->
    _last_generated self < tok_tick bs
    \/ (tok_tick bs = _last_generated self
        /\ _generation_counter self < tok_counter bs).
Proof.
  induction times as [|t times IH]; intros Sorted self k bs Low.
  - destruct k; discriminate.
  - cbn [map] in Sorted. inversion Sorted as [|? ? Sorted' Above]; subst.
    inversion Low as [|? ? Lt Low']; subst.
    cbn [generate_many].
    pose proof (generate_bytes_state self t identifier) as St.
    destruct (generate_bytes self t identifier) as [s1 r] eqn:E.
    cbn [fst] in St.
    specialize (IH Sorted' s1).
    destruct (generate_many s1 times identifier) as [s2 rs]. cbn [snd] in *.
    assert (L1 : _last_generated s1 = get_tick t)
      by (rewrite St; apply update_counter_last).
    assert (Step : get_tick t = _last_generated self ->
                   _generation_counter s1 = _generation_counter self + 1)
      by (rewrite St; apply update_counter_same).
    destruct k as [|k]; cbn [nth_error]; intros H.
    + injection H as ->.
      destruct (generate_bytes_decodes _ _ _ _ _ E) as (_ & C & _ & _ & T).
      rewrite C, T.
      destruct (Z.eq_dec (get_tick t) (_last_generated self)) as [Same|New];
        [right; split; [exact Same | rewrite (Step Same); lia] | left; lia].
    + assert (Low1 : Forall (fun t' => _last_generated s1 <= get_tick t') times).
      { rewrite L1. apply Forall_forall. intros x Hx.
        rewrite Forall_forall in Above. apply Above. apply in_map. exact Hx. }
      destruct (IH k bs Low1 H) as [Later|[SameT More]]; rewrite L1 in *.
      * left. lia.
      * destruct (Z.eq_dec (get_tick t) (_last_generated self)) as [Same|New];
          [right; split; [congruence | rewrite (Step Same) in More; lia]
          | left; lia].
Qed.

(** X9: as long as the clock readings of a run of calls never decrease,
    no two calls of the run return the same token, as bytes or as
    numbers. *)
Theorem nondecreasing_clock_tokens_differ (self : Flakely) (times : list Q)
    (identifier : Z) :
  StronglySorted Z.le (map get_tick times) ->
  forall i j bi bj,
    (i < j)%nat ->
    nth_error (snd (generate_many self times identifier)) i = Some (Ok bi) ->
    nth_error (snd (generate_many self times identifier)) j = Some (Ok bj) ->
    bi <> bj /\ from_bytes bi <> from_bytes bj.
Proof.
  intros Sorted i j bi bj Lt Hi Hj.
  assert (Ne : bi <> bj).
  { revert self i j Lt Hi Hj.
    induction times as [|t times IH]; intros self i j Lt Hi Hj.
    - destruct i; discriminate.
    - cbn [map] in Sorted. inversion Sorted as [|? ? Sorted' Above]; subst.
      cbn [generate_many] in Hi, Hj.
      pose proof (generate_bytes_state self t identifier) as St.
      destruct (generate_bytes self t identifier) as [s1 r] eqn:E.
      cbn [fst] in St.
      pose proof (generate_many_after times identifier Sorted' s1) as After.
      specialize (IH Sorted' s1).
      destruct (generate_many s1 times identifier) as [s2 rs]. cbn [snd] in *.
      destruct j as [|j]; [lia|]. cbn [nth_error] in Hj.
      destruct i as [|i]; cbn [nth_error] in Hi.
      + injection Hi as ->.
        destruct (generate_bytes_decodes _ _ _ _ _ E) as (_ & C & _ & _ & T).
        assert (L1 : _last_generated s1 = get_tick t)
          by (rewrite St; apply update_counter_last).
        assert (Low1 : Forall (fun t' => _last_generated s1 <= get_tick t')
                         times).
        { rewrite L1. apply Forall_forall. intros x Hx.
          rewrite Forall_forall in Above. apply Above. apply in_map. exact Hx. }
        destruct (After j bj Low1 Hj) as [Later|[SameT More]];
          intros Same; subst bj; lia.
      + apply (IH i j); [lia | exact Hi | exact Hj]. }
  split; [exact Ne|].
  intros Same. apply Ne. apply from_bytes_inj; [|exact Same].
  rewrite (generate_many_Ok_length _ _ _ _ _ Hi).
  rewrite (generate_many_Ok_length _ _ _ _ _ Hj). reflexivity.
Qed.

Lemma nondecreasing_clock_tokens_differ_witness :
  StronglySorted Z.le (map get_tick [noon; noon; 1700000001 # 1])
  /\ token_of sample 42 0 1700000000 <> token_of sample 42 0 1700000001.
Proof.
  assert (S : StronglySorted Z.le (map get_tick [noon; noon; 1700000001 # 1])).
  { repeat constructor; discriminate. }
  split; [exact S|].
  refine (proj1 (nondecreasing_clock_tokens_differ sample _ 42 S 0 2 _ _
                   ltac:(repeat constructor) _ _)).
  - vm_compute. reflexivity.
  - vm_compute. reflexivity.
Defined.

(** X10: a clock that comes back to a tick it has left makes the instance
    repeat itself.  When the tick of the first call is new to the
    instance and the third call sees that tick again after a second call
    on a different one, the first and the third call return the same
    token. *)
Theorem clock_return_repeats_token (self : Flakely) (t1 t2 t3 : Q)
    (identifier : Z) :
  get_tick t3 = get_tick t1 ->
  get_tick t2 <> get_tick t1 ->
  _last_generated self <> get_tick t1 ->
  fits 4 identifier -> fits 4 (process self) -> fits 4 (device self) ->
  fits 4 (get_tick t1) ->
  exists bs r2,
    snd (generate_many self [t1; t2; t3] identifier) = [Ok bs; r2; Ok bs]
    /\ bs = token_of self identifier 0 (get_tick t1).
Proof.
  intros Back Away New Fi Fp Fd Ft.
  cbn [generate_many].
  destruct (update_counter_identity self (get_tick t1)) as (D1 & P1 & S1).
  assert (C1 : _generation_counter (update_counter self (get_tick t1)) = 0)
    by (apply update_counter_new; congruence).
  rewrite generate_bytes_minted; rewrite ?C1; try assumption; [|lia].
  set (s1 := update_counter self (get_tick t1)) in *.
  pose proof (generate_bytes_state s1 t2 identifier) as St2.
  destruct (generate_bytes s1 t2 identifier) as [s2 r2]. cbn [fst] in St2.
  destruct (update_counter_identity s1 (get_tick t2)) as (D2 & P2 & S2).
  rewrite <- St2 in D2, P2, S2.
  assert (L2 : _last_generated s2 = get_tick t2)
    by (rewrite St2; apply update_counter_last).
  assert (C3 : _generation_counter (update_counter s2 (get_tick t3)) = 0)
    by (apply update_counter_new; congruence).
  rewrite generate_bytes_minted; rewrite ?C3, ?Back; try congruence; [|lia].
  cbn [snd]. unfold minted. cbn [Z.ltb Z.compare].
  exists (token_of self identifier 0 (get_tick t1)), r2.
  split; [|reflexivity]. do 3 f_equal.
  f_equal. apply token_of_ext; congruence.
Qed.

Lemma clock_return_repeats_token_witness :
  exists bs r2,
    snd (generate_many sample [noon; 1699999999 # 1; noon] 42)
    = [Ok bs; r2; Ok bs].
Proof.
  destruct (clock_return_repeats_token sample noon (1699999999 # 1) noon 42)
    as (bs & r2 & E & _); try fits_now.
  - reflexivity.
  - vm_compute. discriminate.
  - vm_compute. discriminate.
  - exists bs, r2. exact E.
Defined.

(** ** The first call of a fresh instance *)

(** X11: the constructor stores 0 as the last tick seen.  On a freshly
    constructed instance the first token therefore has counter 0 for
    every tick but 0, and counter 1 when the clock reads less than one
    second from the epoch. *)
Theorem first_token_counter (os : os_module) (entropy : Z)
    (device process : option Z) (secret : list byte) (t : Q)
    (identifier : Z) (self' : Flakely) (bs : list byte) :
  generate_bytes (__init__ os entropy device process secret) t identifier
    = (self', Ok bs) ->
  tok_counter bs = (if get_tick t =? 0 then 1 else 0)
  /\ _generation_counter self' = tok_counter bs
  /\ _last_generated self' = get_tick t.
Proof.
  intros E.
  destruct (generate_bytes_decodes _ _ _ _ _ E) as (_ & C & _).
  apply generate_bytes_Ok_inv in E. destruct E as (-> & _).
  split; [|split; [symmetry; exact C | apply update_counter_last]].
  rewrite C. unfold update_counter. cbn [_last_generated __init__].
  destruct (get_tick t =? 0); reflexivity.
Qed.

Lemma first_token_counter_witness :
  tok_counter (token_of sample 42 0 1700000000) = 0.
Proof.
  exact (proj1 (first_token_counter (linux 4242) 123456789123 (Some 7)
                  (Some 9) sample_secret noon 42 _ _ sample_mints)).
Defined.
